(** * NST Spaces: the room-availability engine of [src/lib/room-finder.ts]

    A shallow embedding of the free-room computation (time conversion,
    interval merging, free-slot derivation, schedule aggregation and the
    query with its filters and final sort), together with the roster
    completion of [src/app/api/rooms/route.ts], and the properties the
    specification states about them. *)

From Stdlib Require Import ZArith List String Ascii Bool Lia Permutation Sorted.
From Stdlib Require Import DecimalString.
Import ListNotations.
Open Scope string_scope.
Open Scope list_scope.
Open Scope Z_scope.

(** ** JavaScript numbers

    The engine only ever forms integers (parsed digit strings, sums,
    differences, maxima, minima, floor division and remainder), for which
    IEEE doubles are exact below 2^53, and the value [NaN].  A [number] is
    therefore an integer or [NaN]. *)

Inductive number : Type :=
| Num (z : Z)
| NaN.

Module JS.

Definition lift2 (f : Z -> Z -> Z) (a b : number) : number :=
  match a, b with
  | Num x, Num y => Num (f x y)
  | _, _ => NaN
  end.

Definition add : number -> number -> number := lift2 Z.add.
Definition sub : number -> number -> number := lift2 Z.sub.
Definition mul : number -> number -> number := lift2 Z.mul.

(** [Math.max] and [Math.min] give [NaN] as soon as an argument is. *)
Definition Math_max : number -> number -> number := lift2 Z.max.
Definition Math_min : number -> number -> number := lift2 Z.min.

(** Every comparison with [NaN] is false. *)
Definition cmp2 (f : Z -> Z -> bool) (a b : number) : bool :=
  match a, b with
  | Num x, Num y => f x y
  | _, _ => false
  end.

Definition lt : number -> number -> bool := cmp2 Z.ltb.
Definition le : number -> number -> bool := cmp2 Z.leb.
Definition ge : number -> number -> bool := cmp2 Z.geb.
Definition strictEq : number -> number -> bool := cmp2 Z.eqb.

(** [Math.floor(a / b)] and [a % b] (the remainder has the dividend's
    sign); a zero divisor gives an infinity or [NaN], kept as [NaN]. *)
Definition floorDiv (a b : number) : number :=
  match a, b with
  | Num x, Num y => if y =? 0 then NaN else Num (x / y)
  | _, _ => NaN
  end.

Definition rem (a b : number) : number :=
  match a, b with
  | Num x, Num y => if y =? 0 then NaN else Num (Z.rem x y)
  | _, _ => NaN
  end.

(** Truthiness of a number: neither zero nor [NaN]. *)
Definition truthy (a : number) : bool :=
  match a with
  | Num x => negb (x =? 0)
  | NaN => false
  end.

(** [Number.prototype.toString()]. *)
Definition toString (a : number) : string :=
  match a with
  | Num x => NilZero.string_of_int (Z.to_int x)
  | NaN => "NaN"
  end.

Fixpoint repeatChar (c : ascii) (n : nat) : string :=
  match n with
  | O => EmptyString
  | S n' => String c (repeatChar c n')
  end.

(** [s.padStart(n, c)] for a one-character filler. *)
Definition padStart (n : nat) (c : ascii) (s : string) : string :=
  (repeatChar c (n - String.length s) ++ s)%string.

(** [s.split(sep)] for a one-character separator: never empty. *)
Fixpoint split (sep : ascii) (s : string) : list string :=
  match s with
  | EmptyString => [EmptyString]
  | String c s' =>
      if Ascii.eqb c sep then EmptyString :: split sep s'
      else match split sep s' with
           | p :: ps => String c p :: ps
           | [] => [String c EmptyString]
           end
  end.

Definition isDigit (c : ascii) : bool :=
  (48 <=? N_of_ascii c)%N && (N_of_ascii c <=? 57)%N.

Definition digitVal (c : ascii) : Z := Z.of_N (N_of_ascii c) - 48.

(** Value of a run of decimal digits, [None] at the first other
    character. *)
Fixpoint digitsValue (acc : Z) (s : string) : option Z :=
  match s with
  | EmptyString => Some acc
  | String c s' =>
      if isDigit c then digitsValue (10 * acc + digitVal c) s' else None
  end.

Definition unsignedValue (s : string) : option Z :=
  match s with
  | EmptyString => None
  | _ => digitsValue 0 s
  end.

(** [Number(s)] on the integer literals: the empty string is 0, an
    optional sign followed by decimal digits is that integer, and a string
    with any other character is [NaN].  (White space, fractions,
    exponents, radix prefixes and the word Infinity, which [Number] also
    reads, are outside this model; no statement below depends on them.) *)
Definition Number (s : string) : number :=
  match s with
  | EmptyString => Num 0
  | String c s' =>
      if Ascii.eqb c "-" then
        match unsignedValue s' with Some v => Num (- v) | None => NaN end
      else if Ascii.eqb c "+" then
        match unsignedValue s' with Some v => Num v | None => NaN end
      else
        match unsignedValue s with Some v => Num v | None => NaN end
  end.

(** Longest prefix of decimal digits and its value. *)
Fixpoint digitPrefix (acc : option Z) (s : string) : option Z :=
  match s with
  | EmptyString => acc
  | String c s' =>
      if isDigit c
      then digitPrefix
             (Some (10 * match acc with Some a => a | None => 0 end
                    + digitVal c)) s'
      else acc
  end.

(** [parseInt(s)]: an optional sign, then the longest run of decimal
    digits; [NaN] when there is none.  (Leading white space and the 0x
    prefix are outside this model.) *)
Definition parseInt (s : string) : number :=
  match s with
  | EmptyString => NaN
  | String c s' =>
      if Ascii.eqb c "-" then
        match digitPrefix None s' with Some v => Num (- v) | None => NaN end
      else if Ascii.eqb c "+" then
        match digitPrefix None s' with Some v => Num v | None => NaN end
      else
        match digitPrefix None s with Some v => Num v | None => NaN end
  end.

(** A missing array element read by destructuring is [undefined], which
    arithmetic turns into [NaN]. *)
Definition element (i : nat) (l : list number) : number := nth i l NaN.

(** [Array.prototype.sort(cmp)] is stable, and for a consistent comparator
    its result is the one stable sorted arrangement, computed here by
    insertion: an element moves behind another only when the comparator
    is positive ([NaN] counts as zero). *)
Definition positive (a : number) : bool :=
  match a with
  | Num x => 0 <? x
  | NaN => false
  end.

Section Sort.
Context {A : Type} (cmp : A -> A -> number).

Fixpoint insert (x : A) (l : list A) : list A :=
  match l with
  | [] => [x]
  | y :: l' => if positive (cmp x y) then y :: insert x l' else x :: l
  end.

Definition sort (l : list A) : list A := fold_right insert [] l.
End Sort.

(** A [Map] keeps its keys in insertion order; [set] on a present key
    replaces the value in place. *)
Section Map.
Context {V : Type}.

Fixpoint get (k : string) (m : list (string * V)) : option V :=
  match m with
  | [] => None
  | (k', v) :: m' => if String.eqb k k' then Some v else get k m'
  end.

Definition has (k : string) (m : list (string * V)) : bool :=
  match get k m with Some _ => true | None => false end.

Fixpoint set (k : string) (v : V) (m : list (string * V))
  : list (string * V) :=
  match m with
  | [] => [(k, v)]
  | (k', v') :: m' =>
      if String.eqb k k' then (k, v) :: m' else (k', v') :: set k v m'
  end.
End Map.

End JS.

(** ** Types ([src/types]) *)

Record TimeSlot : Type := mkTimeSlot { start : string; end_ : string }.

Record RoomSchedule : Type :=
  mkRoomSchedule { room : string; day : string; occupied : list TimeSlot }.

Record FreeRoom : Type :=
  mkFreeRoom { fr_room : string; fr_day : string;
               freeFrom : string; freeTill : string; duration : number }.

Definition OPERATING_HOURS : TimeSlot := mkTimeSlot "09:00" "19:30".

(** ** Time utilities *)

(** [const [hours, minutes] = time.split(':').map(Number);
     return hours * 60 + minutes;] *)
Definition timeToMinutes (time : string) : number :=
  let parts := map JS.Number (JS.split ":" time) in
  let hours := JS.element 0 parts in
  let minutes := JS.element 1 parts in
  JS.add (JS.mul hours (Num 60)) minutes.

Definition minutesToTime (minutes : number) : string :=
  let hours := JS.floorDiv minutes (Num 60) in
  let mins := JS.rem minutes (Num 60) in
  (JS.padStart 2 "0" (JS.toString hours) ++ ":"
     ++ JS.padStart 2 "0" (JS.toString mins))%string.

(** ** Schedule aggregation: [mergeRoomSchedules]

    Room, then day, then the concatenated occupied slots, both levels in
    insertion order. *)

Abbreviation DayMap := (list (string * list TimeSlot)).

(** What [dayMap.get(day) || []] reads. *)
Definition slotsOn (dy : string) (dayMap : DayMap) : list TimeSlot :=
  match JS.get dy dayMap with
  | Some l => l
  | None => []
  end.

(** The body of the [forEach]. *)
Definition addSchedule (merged : list (string * DayMap))
    (schedule : RoomSchedule) : list (string * DayMap) :=
  let merged1 :=
    if negb (JS.has (room schedule) merged)
    then JS.set (room schedule) [] merged else merged in
  let roomMap :=
    match JS.get (room schedule) merged1 with
    | Some m => m
    | None => []
    end in
  let roomMap1 :=
    if negb (JS.has (day schedule) roomMap)
    then JS.set (day schedule) [] roomMap else roomMap in
  JS.set (room schedule)
    (JS.set (day schedule)
       (slotsOn (day schedule) roomMap1 ++ occupied schedule) roomMap1)
    merged1.

Definition mergeRoomSchedules (schedules : list RoomSchedule)
  : list (string * DayMap) :=
  fold_left addSchedule schedules [].

(** ** Interval merging and free-slot derivation: [findFreeSlots] *)

(** The comparator of the first sort. *)
Definition byStart (a b : TimeSlot) : number :=
  JS.sub (timeToMinutes (start a)) (timeToMinutes (start b)).

(** One turn of the loop that fills [mergedOccupied]; the array is split
    into its last element and the ones before it. *)
Definition mergeStep (startMinutes endMinutes : number)
    (mergedOccupied : list TimeSlot) (slot : TimeSlot) : list TimeSlot :=
  let slotStart := JS.Math_max (timeToMinutes (start slot)) startMinutes in
  let slotEnd := JS.Math_min (timeToMinutes (end_ slot)) endMinutes in
  if JS.ge slotStart slotEnd then mergedOccupied
  else
    let fresh := mkTimeSlot (minutesToTime slotStart) (minutesToTime slotEnd) in
    match rev mergedOccupied with
    | [] => [fresh]
    | last :: before =>
        let lastEnd := timeToMinutes (end_ last) in
        if JS.le slotStart lastEnd
        then rev before
               ++ [mkTimeSlot (start last)
                     (minutesToTime (JS.Math_max lastEnd slotEnd))]
        else mergedOccupied ++ [fresh]
    end.

(** The array [mergedOccupied] when the first loop of [findFreeSlots] is
    over. *)
Definition mergedOccupied (occupiedSlots : list TimeSlot)
    (operatingStart operatingEnd : string) : list TimeSlot :=
  let startMinutes := timeToMinutes operatingStart in
  let endMinutes := timeToMinutes operatingEnd in
  let sorted := JS.sort byStart occupiedSlots in
  fold_left (mergeStep startMinutes endMinutes) sorted [].

(** One turn of the inversion loop, on [freeSlots] and [currentStart]. *)
Definition invertStep (st : list TimeSlot * number) (occ : TimeSlot)
  : list TimeSlot * number :=
  let (freeSlots, currentStart) := st in
  let occStart := timeToMinutes (start occ) in
  (if JS.lt currentStart occStart
   then freeSlots ++ [mkTimeSlot (minutesToTime currentStart) (start occ)]
   else freeSlots,
   JS.Math_max currentStart (timeToMinutes (end_ occ))).

Definition findFreeSlots (occupiedSlots : list TimeSlot)
    (operatingStart operatingEnd : string) : list TimeSlot :=
  let startMinutes := timeToMinutes operatingStart in
  let endMinutes := timeToMinutes operatingEnd in
  let merged := mergedOccupied occupiedSlots operatingStart operatingEnd in
  let (freeSlots, currentStart) :=
    fold_left invertStep merged ([], startMinutes) in
  if JS.lt currentStart endMinutes
  then freeSlots ++ [mkTimeSlot (minutesToTime currentStart) operatingEnd]
  else freeSlots.

(** ** The query: [findFreeRooms] *)

(** An optional string argument is used when it is given and not empty. *)
Definition givenString (o : option string) : bool :=
  match o with
  | Some s => negb (String.eqb s "")
  | None => false
  end.

Definition givenNumber (o : option number) : bool :=
  match o with
  | Some n => JS.truthy n
  | None => false
  end.

Definition numberOf (o : option number) : number :=
  match o with Some n => n | None => NaN end.

Definition stringOf (o : option string) : string :=
  match o with Some s => s | None => "" end.

(** The comparator of the final sort. *)
Definition byDurationThenRoom (a b : FreeRoom) : number :=
  if negb (JS.strictEq (duration b) (duration a))
  then JS.sub (duration b) (duration a)
  else JS.sub (JS.parseInt (fr_room a)) (JS.parseInt (fr_room b)).

(** The records one free slot of one room contributes. *)
Definition slotResults (rm dy : string) (targetTime : option string)
    (minDuration : option number) (slot : TimeSlot) : list FreeRoom :=
  let start_ := timeToMinutes (start slot) in
  let end' := timeToMinutes (end_ slot) in
  let dur := JS.sub end' start_ in
  if givenNumber minDuration && JS.lt dur (numberOf minDuration) then []
  else if givenString targetTime
          && (let target := timeToMinutes (stringOf targetTime) in
              JS.lt target start_ || JS.ge target end')
  then []
  else [mkFreeRoom rm dy (start slot) (end_ slot) dur].

(** The records one room contributes. *)
Definition roomResults (dy : string) (targetTime : option string)
    (minDuration : option number) (entry : string * DayMap) : list FreeRoom :=
  let (rm, dayMap) := entry in
  let occupiedSlots := slotsOn dy dayMap in
  let freeSlots :=
    findFreeSlots occupiedSlots (start OPERATING_HOURS) (end_ OPERATING_HOURS) in
  flat_map (slotResults rm dy targetTime minDuration) freeSlots.

Definition findFreeRooms (schedules : list RoomSchedule) (dy : string)
    (targetTime : option string) (minDuration : option number)
  : list FreeRoom :=
  let merged := mergeRoomSchedules schedules in
  let freeRooms := flat_map (roomResults dy targetTime minDuration) merged in
  JS.sort byDurationThenRoom freeRooms.

(** ** Roster completion: [getCompleteSchedules] of the rooms route *)

Definition ALL_ROOMS : list string :=
  ["401"; "402"; "403"; "404"; "405"; "501"; "502"; "503"; "504"; "505"].

Definition DAYS : list string := ["Mon"; "Tue"; "Wed"; "Thur"].

(** The room and day pairs the completion loops over. *)
Definition rosterPairs : list (string * string) :=
  flat_map (fun rm => map (fun dy => (rm, dy)) DAYS) ALL_ROOMS.

Definition scheduleKey (rm dy : string) : string := (rm ++ "-" ++ dy)%string.

Definition addExisting (scheduleMap : list (string * RoomSchedule))
    (schedule : RoomSchedule) : list (string * RoomSchedule) :=
  let key := scheduleKey (room schedule) (day schedule) in
  match JS.get key scheduleMap with
  | Some existing =>
      JS.set key
        (mkRoomSchedule (room existing) (day existing)
           (occupied existing ++ occupied schedule))
        scheduleMap
  | None => JS.set key schedule scheduleMap
  end.

Definition ensureKey (scheduleMap : list (string * RoomSchedule))
    (rd : string * string) : list (string * RoomSchedule) :=
  let (rm, dy) := rd in
  let key := scheduleKey rm dy in
  if negb (JS.has key scheduleMap)
  then JS.set key (mkRoomSchedule rm dy []) scheduleMap
  else scheduleMap.

Definition getCompleteSchedules (schedules : list RoomSchedule)
  : list RoomSchedule :=
  let scheduleMap := fold_left addExisting schedules [] in
  let scheduleMap' :=
    fold_left ensureKey rosterPairs scheduleMap in
  map snd scheduleMap'.

(** ** The current day and [getFreeNow]

    The weekday and the time are what [Intl.DateTimeFormat] prints for the
    campus time zone; they are passed in. *)

Definition getCurrentDay (weekday : string) : string :=
  if String.eqb weekday "Thu" then "Thur" else weekday.

Definition getFreeNow (schedules : list RoomSchedule)
    (weekday currentTime : string) : list FreeRoom :=
  let currentDay := getCurrentDay weekday in
  findFreeRooms schedules currentDay (Some currentTime) None.

(** ** The schedule grid: [isOccupied] and [getOccupiedSlot]
    ([components/admin/ScheduleGrid.tsx]); [slots] may be undefined. *)

Definition timeInSlot (time : string) (slot : TimeSlot) : bool :=
  let timeMinutes := timeToMinutes time in
  JS.ge timeMinutes (timeToMinutes (start slot))
  && JS.lt timeMinutes (timeToMinutes (end_ slot)).

Definition isOccupied (slots : option (list TimeSlot)) (time : string)
  : bool :=
  match slots with
  | None => false
  | Some l => existsb (timeInSlot time) l
  end.

Definition getOccupiedSlot (slots : option (list TimeSlot)) (time : string)
  : option TimeSlot :=
  match slots with
  | None => None
  | Some l => find (timeInSlot time) l
  end.

(** [isRoomFreeAt] of the algorithm test script. *)
Definition isRoomFreeAt (freeSlots : list TimeSlot) (targetTime : string)
  : bool :=
  existsb (timeInSlot targetTime) freeSlots.

(** ** Import: [mergeTimeSlots] and [getAllRooms] ([lib/pdf-parser.ts]) *)

(** [a.localeCompare(b)].  On clock times (digits, with the colon at the
    same place) collation order is code-unit order, which is what is
    modelled. *)
Definition localeCompare (a b : string) : number :=
  match String.compare a b with
  | Lt => Num (-1)
  | Eq => Num 0
  | Gt => Num 1
  end.

(** [a <= b] and [a > b] on strings: code-unit order. *)
Definition stringLe (a b : string) : bool :=
  match String.compare a b with Gt => false | _ => true end.

Definition stringGt (a b : string) : bool :=
  match String.compare a b with Gt => true | _ => false end.

(** One turn of the loop of [mergeTimeSlots]. *)
Definition mergeTimeStep (merged : list TimeSlot) (current : TimeSlot)
  : list TimeSlot :=
  match rev merged with
  | [] => merged
  | last :: before =>
      if stringLe (start current) (end_ last)
      then rev before
             ++ [mkTimeSlot (start last)
                   (if stringGt (end_ current) (end_ last)
                    then end_ current else end_ last)]
      else merged ++ [current]
  end.

Definition mergeTimeSlots (slots : list TimeSlot) : list TimeSlot :=
  match slots with
  | [] => []
  | _ =>
      let sorted :=
        JS.sort (fun a b => localeCompare (start a) (start b)) slots in
      match sorted with
      | [] => []
      | first :: rest => fold_left mergeTimeStep rest [first]
      end
  end.

(** [Set.add], the set kept in insertion order. *)
Definition setAdd (x : string) (s : list string) : list string :=
  if existsb (String.eqb x) s then s else s ++ [x].

Definition getAllRooms (schedules : list RoomSchedule) : list string :=
  let rooms := fold_left (fun rooms s => setAdd (room s) rooms) schedules [] in
  JS.sort (fun a b => JS.sub (JS.parseInt a) (JS.parseInt b)) rooms.

(** ** The algorithm test script: its own [findFreeSlots]

    The script keeps the merged occupied slots as pairs of minutes and
    always uses [OPERATING_HOURS]. *)

Module TestScript.

Definition mergeStep (startMinutes endMinutes : number)
    (mergedOccupied : list (number * number)) (slot : TimeSlot)
  : list (number * number) :=
  let slotStart := JS.Math_max (timeToMinutes (start slot)) startMinutes in
  let slotEnd := JS.Math_min (timeToMinutes (end_ slot)) endMinutes in
  if JS.ge slotStart slotEnd then mergedOccupied
  else
    match rev mergedOccupied with
    | [] => [(slotStart, slotEnd)]
    | last :: before =>
        if JS.le slotStart (snd last)
        then rev before ++ [(fst last, JS.Math_max (snd last) slotEnd)]
        else mergedOccupied ++ [(slotStart, slotEnd)]
    end.

Definition invertStep (st : list TimeSlot * number)
    (occ : number * number) : list TimeSlot * number :=
  let (freeSlots, currentStart) := st in
  (if JS.lt currentStart (fst occ)
   then freeSlots
          ++ [mkTimeSlot (minutesToTime currentStart)
                (minutesToTime (fst occ))]
   else freeSlots,
   JS.Math_max currentStart (snd occ)).

Definition findFreeSlots (occupiedSlots : list TimeSlot) : list TimeSlot :=
  let startMinutes := timeToMinutes (start OPERATING_HOURS) in
  let endMinutes := timeToMinutes (end_ OPERATING_HOURS) in
  let sorted := JS.sort byStart occupiedSlots in
  let mergedOccupied := fold_left (mergeStep startMinutes endMinutes) sorted [] in
  let (freeSlots, currentStart) :=
    fold_left invertStep mergedOccupied ([], startMinutes) in
  if JS.lt currentStart endMinutes
  then freeSlots
         ++ [mkTimeSlot (minutesToTime currentStart) (end_ OPERATING_HOURS)]
  else freeSlots.

End TestScript.

(** ** Well-formed clock times

    A [ClockTime] of the data model: two digits, a colon, two digits, on a
    24-hour clock. *)

Definition isClockTime (s : string) : bool :=
  match s with
  | String h1 (String h2 (String c (String m1 (String m2 EmptyString)))) =>
      JS.isDigit h1 && JS.isDigit h2 && Ascii.eqb c ":"
      && JS.isDigit m1 && JS.isDigit m2
      && (10 * JS.digitVal h1 + JS.digitVal h2 <=? 23)
      && (10 * JS.digitVal m1 + JS.digitVal m2 <=? 59)
  | _ => false
  end.

Definition validSlot (s : TimeSlot) : bool :=
  isClockTime (start s) && isClockTime (end_ s).

Definition validSlots (l : list TimeSlot) : bool := forallb validSlot l.

Definition validSchedules (l : list RoomSchedule) : bool :=
  forallb (fun sch => validSlots (occupied sch)) l.

(** Minutes of a clock time, as an integer (0 where the conversion gives
    [NaN]). *)
Definition minutesOf (s : string) : Z :=
  match timeToMinutes s with
  | Num z => z
  | NaN => 0
  end.

(** The five characters of hour [h] and minute [m]. *)
Definition digitChar (z : Z) : ascii := ascii_of_N (48 + Z.to_N z).

Definition clockString (h m : Z) : string :=
  String (digitChar (h / 10)) (String (digitChar (h mod 10))
    (String ":" (String (digitChar (m / 10))
       (String (digitChar (m mod 10)) EmptyString)))).

Definition number_eqb (a b : number) : bool :=
  match a, b with
  | Num x, Num y => x =? y
  | NaN, NaN => true
  | _, _ => false
  end.

(** The table check behind the conversion lemmas. *)
Definition clockCheck (n : nat) : bool :=
  let z := Z.of_nat n in
  String.eqb (minutesToTime (Num z)) (clockString (z / 60) (z mod 60))
  && number_eqb (timeToMinutes (clockString (z / 60) (z mod 60))) (Num z)
  && isClockTime (clockString (z / 60) (z mod 60)).

(** ** Slots as intervals of minutes

    The properties below are stated on minutes.  A slot read in minutes is
    an [interval]; the functions [absorb], [mergeZ] and [invertZ] are the
    two loops of [findFreeSlots] on intervals, to which the loops on
    strings are proved equal for well-formed clock times. *)

Abbreviation interval := (Z * Z)%type.

Definition toInterval (s : TimeSlot) : interval :=
  (minutesOf (start s), minutesOf (end_ s)).

Definition toSlot (i : interval) : TimeSlot :=
  mkTimeSlot (minutesToTime (Num (fst i))) (minutesToTime (Num (snd i))).

(** Minute [t] lies in the slot, end excluded. *)
Definition contains (t : Z) (s : TimeSlot) : bool :=
  JS.le (timeToMinutes (start s)) (Num t)
  && JS.lt (Num t) (timeToMinutes (end_ s)).

(** How many slots of the list contain minute [t]. *)
Definition countAt (t : Z) (l : list TimeSlot) : nat :=
  List.length (filter (contains t) l).

(** The slot has a positive length. *)
Definition positiveSlot (s : TimeSlot) : bool :=
  JS.lt (timeToMinutes (start s)) (timeToMinutes (end_ s)).

Definition inside (t : Z) (i : interval) : bool :=
  (fst i <=? t) && (t <? snd i).

Definition covered (l : list interval) (t : Z) : Prop :=
  Exists (fun i => fst i <= t < snd i) l.

Definition countZ (t : Z) (l : list interval) : nat :=
  List.length (filter (inside t) l).

(** Sorted by start. *)
Definition byFst (i j : interval) : Prop := fst i <= fst j.

(** Both ends are minutes of one day. *)
Definition inDay (i : interval) : Prop :=
  0 <= fst i < 1440 /\ 0 <= snd i < 1440.

(** An interval cut to the window. *)
Definition clip (ws we : Z) (i : interval) : interval :=
  (Z.max (fst i) ws, Z.min (snd i) we).

(** The merging loop once a running slot [cur] exists. *)
Fixpoint absorb (ws we : Z) (cur : interval) (l : list interval)
  : list interval :=
  match l with
  | [] => [cur]
  | i :: r =>
      let (s, e) := clip ws we i in
      if s >=? e then absorb ws we cur r
      else if s <=? snd cur then absorb ws we (fst cur, Z.max (snd cur) e) r
      else cur :: absorb ws we (s, e) r
  end.

(** The merging loop from the empty array. *)
Fixpoint mergeZ (ws we : Z) (l : list interval) : list interval :=
  match l with
  | [] => []
  | i :: r =>
      let (s, e) := clip ws we i in
      if s >=? e then mergeZ ws we r else absorb ws we (s, e) r
  end.

(** The inversion loop with its final slot, from cursor [cur]. *)
Fixpoint invertZ (cur we : Z) (l : list interval) : list interval :=
  match l with
  | [] => if cur <? we then [(cur, we)] else []
  | (s, e) :: r =>
      (if cur <? s then [(cur, s)] else []) ++ invertZ (Z.max cur e) we r
  end.

(** The merged occupied intervals and the free intervals of a slot list. *)
Definition mergedZ (l : list TimeSlot) (operatingStart operatingEnd : string)
  : list interval :=
  mergeZ (minutesOf operatingStart) (minutesOf operatingEnd)
    (map toInterval (JS.sort byStart l)).

Definition freeZ (l : list TimeSlot) (operatingStart operatingEnd : string)
  : list interval :=
  invertZ (minutesOf operatingStart) (minutesOf operatingEnd)
    (mergedZ l operatingStart operatingEnd).

(** Intervals in a window from [lo] to [we]: each of positive length, in
    increasing order, each starting strictly after the previous one ends. *)
Fixpoint chain (lo we : Z) (l : list interval) : Prop :=
  match l with
  | [] => True
  | (s, e) :: r => lo <= s /\ s < e /\ e <= we /\ chain (e + 1) we r
  end.

(** The occupied slots of a room on a day: those of all its records for
    that day, in the order of the records. *)
Definition occupancyOf (schedules : list RoomSchedule) (rm dy : string)
  : list TimeSlot :=
  flat_map occupied
    (filter (fun sch => String.eqb (room sch) rm && String.eqb (day sch) dy)
       schedules).

(** A room identifier of the roster kind: one to fifteen decimal digits
    (so that its integer value is exact as a double). *)
Fixpoint allDigits (s : string) : bool :=
  match s with
  | EmptyString => true
  | String c s' => JS.isDigit c && allDigits s'
  end.

Definition isRoomId (s : string) : bool :=
  negb (String.eqb s "") && allDigits s && (String.length s <=? 15)%nat.

Definition numericRooms (l : list RoomSchedule) : bool :=
  forallb (fun sch => isRoomId (room sch)) l.

(** The order of the returned list: longer durations first, and for equal
    durations the smaller room number first. *)
Definition resultOrder (a b : FreeRoom) : Prop :=
  exists da db ra rb : Z,
    duration a = Num da /\ duration b = Num db
    /\ JS.parseInt (fr_room a) = Num ra /\ JS.parseInt (fr_room b) = Num rb
    /\ (db < da \/ (da = db /\ ra <= rb)).

(** The records of one room in a result list. *)
Definition resultsOfRoom (rm : string) (l : list FreeRoom) : list FreeRoom :=
  filter (fun res => String.eqb (fr_room res) rm) l.

(** Character [c] occurs in the string. *)
Fixpoint hasChar (c : ascii) (s : string) : bool :=
  match s with
  | EmptyString => false
  | String d s' => Ascii.eqb d c || hasChar c s'
  end.

(** Invariants of the map built by [getCompleteSchedules]: every record
    sits under the key of its own room and day, and comes from a record of
    the data with that room and day (or, after completion, is empty). *)
Definition keyed (m : list (string * RoomSchedule)) : Prop :=
  forall k rec, In (k, rec) m -> k = scheduleKey (room rec) (day rec).

Definition fromData (schedules : list RoomSchedule)
    (m : list (string * RoomSchedule)) : Prop :=
  forall k rec, In (k, rec) m ->
    exists sch, In sch schedules /\ room sch = room rec /\ day sch = day rec.

Definition fromDataOrEmpty (schedules : list RoomSchedule)
    (m : list (string * RoomSchedule)) : Prop :=
  forall k rec, In (k, rec) m ->
    (exists sch, In sch schedules /\ room sch = room rec
                 /\ day sch = day rec)
    \/ occupied rec = [].

(** The loop of [mergeTimeSlots] from a running slot, by recursion on the
    slots still to come. *)
Fixpoint mergeRun (cur : TimeSlot) (l : list TimeSlot) : list TimeSlot :=
  match l with
  | [] => [cur]
  | x :: r =>
      if stringLe (start x) (end_ cur)
      then mergeRun
             (mkTimeSlot (start cur)
                (if stringGt (end_ x) (end_ cur) then end_ x else end_ cur))
             r
      else cur :: mergeRun x r
  end.

(** The slots of the records filed under one key of
    [getCompleteSchedules]. *)
Definition keyOccupancy (schedules : list RoomSchedule) (k : string)
  : list TimeSlot :=
  flat_map occupied
    (filter (fun x => String.eqb (scheduleKey (room x) (day x)) k) schedules).

(** The clock times of a day with their minutes, and the check that string
    order is minute order on them. *)
Definition clockTable : list (Z * string) :=
  map (fun n => let z := Z.of_nat n in (z, clockString (z / 60) (z mod 60)))
    (seq 0 1440).

Definition comparison_eqb (a b : comparison) : bool :=
  match a, b with
  | Lt, Lt | Eq, Eq | Gt, Gt => true
  | _, _ => false
  end.

Definition orderCheck (table : list (Z * string)) : bool :=
  forallb
    (fun p =>
       forallb
         (fun q =>
            comparison_eqb (String.compare (snd p) (snd q))
              (Z.compare (fst p) (fst q)))
         table)
    table.

(** Rooms in ascending order of their number. *)
Definition roomOrder (a b : string) : Prop :=
  exists na nb : Z,
    JS.parseInt a = Num na /\ JS.parseInt b = Num nb /\ na <= nb.

(** Every slot of the list has a positive length. *)
Definition positiveSlots (l : list TimeSlot) : bool := forallb positiveSlot l.

(** An interval as a pair of numbers. *)
Definition toNumbers (i : interval) : number * number :=
  (Num (fst i), Num (snd i)).

(** A character that no string read by [Number] as a number can contain: a
    printable ASCII character other than the digits, the signs, the point
    and the letters of the hexadecimal digits, of the radix prefixes, of
    the exponent and of the word Infinity. *)
Definition isForeign (c : ascii) : bool :=
  (33 <=? N_of_ascii c)%N && (N_of_ascii c <=? 126)%N
  && negb (hasChar c "0123456789+-.abcdefABCDEFxXoOInity").

Fixpoint hasForeign (s : string) : bool :=
  match s with
  | EmptyString => false
  | String c s' => isForeign c || hasForeign s'
  end.

(** ** Clock times and minutes: the two conversions are inverse *)

Section ClockFacts.

Lemma number_eqb_eq a b : number_eqb a b = true -> a = b.
Proof.
  destruct a, b; simpl; try discriminate; auto.
  intros H; apply Z.eqb_eq in H; now subst.
Qed.

Lemma clockCheck_all : forallb clockCheck (seq 0 1440) = true.
Proof. vm_compute. reflexivity. Qed.

Lemma clock_table (z : Z) :
  0 <= z < 1440 ->
  minutesToTime (Num z) = clockString (z / 60) (z mod 60)
  /\ timeToMinutes (clockString (z / 60) (z mod 60)) = Num z
  /\ isClockTime (clockString (z / 60) (z mod 60)) = true.
Proof.
  intros Hz.
  pose proof clockCheck_all as H.
  rewrite forallb_forall in H.
  specialize (H (Z.to_nat z)).
  assert (Hin : In (Z.to_nat z) (seq 0 1440)) by (apply in_seq; lia).
  apply H in Hin. unfold clockCheck in Hin.
  rewrite Z2Nat.id in Hin by lia.
  apply andb_true_iff in Hin as [Hin H3].
  apply andb_true_iff in Hin as [H1 H2].
  apply String.eqb_eq in H1. apply number_eqb_eq in H2. auto.
Qed.

Lemma isDigit_digitChar (c : ascii) :
  JS.isDigit c = true ->
  c = digitChar (JS.digitVal c) /\ 0 <= JS.digitVal c <= 9.
Proof.
  unfold JS.isDigit, JS.digitVal, digitChar. intros H.
  apply andb_true_iff in H as [H1 H2].
  apply N.leb_le in H1. apply N.leb_le in H2.
  split; [|lia].
  replace (48 + Z.to_N (Z.of_N (N_of_ascii c) - 48))%N with (N_of_ascii c)
    by lia.
  now rewrite ascii_N_embedding.
Qed.

Lemma isClockTime_clockString (s : string) :
  isClockTime s = true ->
  exists h m, 0 <= h <= 23 /\ 0 <= m <= 59 /\ s = clockString h m.
Proof.
  destruct s as [|c1 [|c2 [|c3 [|c4 [|c5 [|c6 s]]]]]];
    unfold isClockTime; try discriminate.
  intros H.
  do 6 (apply andb_true_iff in H as [H ?]).
  repeat match goal with
         | D : JS.isDigit _ = true |- _ => apply isDigit_digitChar in D
         | D : ?x = digitChar _ /\ _ |- _ => destruct D as [? ?]
         | D : (_ <=? _) = true |- _ => apply Z.leb_le in D
         | D : Ascii.eqb _ _ = true |- _ => apply Ascii.eqb_eq in D
         end.
  subst c3.
  exists (10 * JS.digitVal c1 + JS.digitVal c2),
         (10 * JS.digitVal c4 + JS.digitVal c5).
  split; [lia|]. split; [lia|].
  unfold clockString.
  replace ((10 * JS.digitVal c1 + JS.digitVal c2) / 10)
    with (JS.digitVal c1)
    by (apply Z.div_unique with (r := JS.digitVal c2); lia).
  replace ((10 * JS.digitVal c1 + JS.digitVal c2) mod 10)
    with (JS.digitVal c2)
    by (apply Z.mod_unique with (q := JS.digitVal c1); lia).
  replace ((10 * JS.digitVal c4 + JS.digitVal c5) / 10)
    with (JS.digitVal c4)
    by (apply Z.div_unique with (r := JS.digitVal c5); lia).
  replace ((10 * JS.digitVal c4 + JS.digitVal c5) mod 10)
    with (JS.digitVal c5)
    by (apply Z.mod_unique with (q := JS.digitVal c4); lia).
  congruence.
Qed.

(** A well-formed clock time converts to a minute of the day, and
    converting that minute back gives the same string. *)
Lemma clock_parse (s : string) :
  isClockTime s = true ->
  exists z, 0 <= z < 1440 /\ timeToMinutes s = Num z
            /\ minutesToTime (Num z) = s.
Proof.
  intros H. apply isClockTime_clockString in H as (h & m & Hh & Hm & ->).
  exists (60 * h + m).
  assert (Hd : (60 * h + m) / 60 = h)
    by (symmetry; apply Z.div_unique with (r := m); lia).
  assert (Hr : (60 * h + m) mod 60 = m)
    by (symmetry; apply Z.mod_unique with (q := h); lia).
  destruct (clock_table (60 * h + m)) as (H1 & H2 & _); [lia|].
  rewrite Hd, Hr in H1, H2. split; [lia|]. auto.
Qed.

(** A minute of the day prints as a well-formed clock time that converts
    back to it. *)
Lemma clock_print (z : Z) :
  0 <= z < 1440 ->
  timeToMinutes (minutesToTime (Num z)) = Num z
  /\ isClockTime (minutesToTime (Num z)) = true.
Proof.
  intros Hz. destruct (clock_table z Hz) as (H1 & H2 & H3).
  rewrite H1. auto.
Qed.

Lemma minutesOf_spec (s : string) :
  isClockTime s = true ->
  timeToMinutes s = Num (minutesOf s) /\ 0 <= minutesOf s < 1440
  /\ minutesToTime (Num (minutesOf s)) = s.
Proof.
  intros H. destruct (clock_parse s H) as (z & Hz & Hp & Hq).
  unfold minutesOf. rewrite Hp. auto.
Qed.

End ClockFacts.

(** ** The sort: a stable sorted permutation *)

Section SortFacts.

Context {A : Type} (cmp : A -> A -> number).

Lemma insert_perm (x : A) (l : list A) :
  Permutation (JS.insert cmp x l) (x :: l).
Proof.
  induction l as [|y l IH]; simpl; [reflexivity|].
  destruct (JS.positive (cmp x y)); [|reflexivity].
  rewrite IH. apply perm_swap.
Qed.

Lemma sort_perm (l : list A) : Permutation (JS.sort cmp l) l.
Proof.
  induction l as [|x l IH]; simpl; [reflexivity|].
  rewrite insert_perm. now constructor.
Qed.

Variable P : A -> Prop.
Variable R : A -> A -> Prop.
Hypothesis after : forall x y, P x -> P y ->
  JS.positive (cmp x y) = true -> R y x.
Hypothesis before : forall x y, P x -> P y ->
  JS.positive (cmp x y) = false -> R x y.

Lemma insert_sorted (x : A) (l : list A) :
  P x -> Forall P l -> Sorted R l -> Sorted R (JS.insert cmp x l).
Proof.
  intros Hx Hl Hs. induction l as [|y l IH]; simpl.
  - repeat constructor.
  - apply Forall_cons_iff in Hl as [Hy Hl].
    apply Sorted_inv in Hs as [Hs Hh].
    destruct (JS.positive (cmp x y)) eqn:Hc.
    + constructor; [now apply IH|].
      destruct l as [|z l]; simpl.
      * constructor. now apply after.
      * destruct (JS.positive (cmp x z)); constructor.
        -- now inversion Hh.
        -- now apply after.
    + constructor; [now constructor|]. constructor. now apply before.
Qed.

Lemma sort_sorted (l : list A) : Forall P l -> Sorted R (JS.sort cmp l).
Proof.
  induction l as [|x l IH]; intros Hl; simpl; [constructor|].
  apply Forall_cons_iff in Hl as [Hx Hl].
  apply insert_sorted; auto.
  eapply Permutation_Forall; [|exact Hl]. symmetry. apply sort_perm.
Qed.

End SortFacts.

Lemma filter_length_perm {A : Type} (f : A -> bool) (l l' : list A) :
  Permutation l l' ->
  List.length (filter f l) = List.length (filter f l').
Proof.
  induction 1; simpl; auto.
  - destruct (f x); simpl; auto.
  - destruct (f x), (f y); reflexivity.
  - congruence.
Qed.

(** ** Intervals: the merged list is canonical and covers the clipped input *)

Section Intervals.

Variables ws we : Z.

Lemma covered_cons (i : interval) (l : list interval) (t : Z) :
  covered (i :: l) t <-> fst i <= t < snd i \/ covered l t.
Proof. unfold covered. apply Exists_cons. Qed.

Lemma covered_nil (t : Z) : covered [] t <-> False.
Proof. unfold covered. apply Exists_nil. Qed.

Lemma covered_app (a b : list interval) (t : Z) :
  covered (a ++ b) t <-> covered a t \/ covered b t.
Proof. unfold covered. apply Exists_app. Qed.

Lemma chain_weaken (l : list interval) (lo lo' hi : Z) :
  lo' <= lo -> chain lo hi l -> chain lo' hi l.
Proof.
  destruct l as [|[s e] r]; simpl; [auto|]. intros H (H1 & H2 & H3 & H4).
  repeat split; auto; lia.
Qed.

Lemma chain_bounds (l : list interval) :
  forall lo hi, chain lo hi l ->
    Forall (fun i => lo <= fst i /\ fst i < snd i /\ snd i <= hi) l.
Proof.
  induction l as [|[s e] r IH]; intros lo hi H; [constructor|].
  simpl in H. destruct H as (H1 & H2 & H3 & H4). constructor; [simpl; lia|].
  apply IH in H4. eapply Forall_impl; [|exact H4].
  simpl. intros i Hi. lia.
Qed.

Lemma chain_separated (l : list interval) :
  forall lo hi, chain lo hi l ->
    StronglySorted (fun i j => fst i < fst j /\ snd i < fst j) l.
Proof.
  induction l as [|[s e] r IH]; intros lo hi H; [constructor|].
  simpl in H. destruct H as (H1 & H2 & H3 & H4). constructor; [eauto|].
  apply chain_bounds in H4. eapply Forall_impl; [|exact H4].
  simpl. intros i Hi. lia.
Qed.

Lemma chain_covered_lo (l : list interval) (lo hi t : Z) :
  chain lo hi l -> covered l t -> lo <= t < hi.
Proof.
  intros H Hc. apply chain_bounds in H. unfold covered in Hc.
  rewrite Exists_exists in Hc. destruct Hc as (i & Hi & Ht).
  rewrite Forall_forall in H. specialize (H i Hi). lia.
Qed.

Lemma absorb_chain (l : list interval) :
  forall lo cur, lo <= fst cur -> fst cur < snd cur -> snd cur <= we ->
    chain lo we (absorb ws we cur l).
Proof.
  induction l as [|[a b] r IH]; intros lo [cs ce] H1 H2 H3; simpl in *.
  - repeat split; auto.
  - destruct (Z.max a ws >=? Z.min b we) eqn:Hd; [apply IH; simpl; auto|].
    rewrite Z.geb_leb in Hd. apply Z.leb_gt in Hd.
    destruct (Z.max a ws <=? ce) eqn:Hm.
    + apply IH; simpl; lia.
    + apply Z.leb_gt in Hm. simpl. repeat split; auto.
      apply IH; simpl; lia.
Qed.

Lemma mergeZ_chain (l : list interval) : chain ws we (mergeZ ws we l).
Proof.
  induction l as [|[a b] r IH]; simpl; [exact I|].
  destruct (Z.max a ws >=? Z.min b we) eqn:Hd; [exact IH|].
  rewrite Z.geb_leb in Hd. apply Z.leb_gt in Hd.
  apply absorb_chain; simpl; lia.
Qed.

Lemma absorb_covered (l : list interval) :
  StronglySorted byFst l ->
  forall cur, (forall i, In i l -> fst cur <= Z.max (fst i) ws) ->
  forall t, covered (absorb ws we cur l) t
            <-> fst cur <= t < snd cur \/ covered (map (clip ws we) l) t.
Proof.
  induction l as [|[a b] r IH]; intros Hs [cs ce] Hlo t.
  - simpl. rewrite covered_cons, !covered_nil. simpl. tauto.
  - apply StronglySorted_inv in Hs as [Hr Ha].
    cbn [absorb map clip fst snd]. rewrite covered_cons. cbn [fst snd].
    assert (Hcs : cs <= Z.max a ws) by (apply (Hlo (a, b)); now left).
    assert (Hlo' : forall i, In i r -> cs <= Z.max (fst i) ws)
      by (intros i Hi; apply (Hlo i); now right).
    destruct (Z.max a ws >=? Z.min b we) eqn:Hd.
    + rewrite (IH Hr (cs, ce) Hlo' t). simpl.
      rewrite Z.geb_leb in Hd. apply Z.leb_le in Hd. intuition lia.
    + rewrite Z.geb_leb in Hd. apply Z.leb_gt in Hd. simpl in Hcs.
      destruct (Z.max a ws <=? ce) eqn:Hm.
      * apply Z.leb_le in Hm.
        rewrite (IH Hr (cs, Z.max ce (Z.min b we)) Hlo' t). simpl.
        intuition lia.
      * rewrite covered_cons. cbn [fst snd].
        rewrite (IH Hr (Z.max a ws, Z.min b we)); [simpl; tauto|].
        intros i Hi. simpl. rewrite Forall_forall in Ha.
        specialize (Ha i Hi). unfold byFst in Ha. simpl in Ha. lia.
Qed.

Lemma mergeZ_covered (l : list interval) :
  StronglySorted byFst l ->
  forall t, covered (mergeZ ws we l) t <-> covered (map (clip ws we) l) t.
Proof.
  induction l as [|[a b] r IH]; intros Hs t; [reflexivity|].
  apply StronglySorted_inv in Hs as [Hr Ha].
  cbn [mergeZ map clip fst snd]. rewrite covered_cons. cbn [clip fst snd].
  destruct (Z.max a ws >=? Z.min b we) eqn:Hd.
  - rewrite (IH Hr t). rewrite Z.geb_leb in Hd. apply Z.leb_le in Hd.
    intuition lia.
  - rewrite absorb_covered; [simpl; tauto|exact Hr|].
    intros i Hi. simpl. rewrite Forall_forall in Ha.
    specialize (Ha i Hi). unfold byFst in Ha. simpl in Ha. lia.
Qed.

(** Two canonical lists that cover the same minutes are the same list. *)
Lemma chain_unique (a : list interval) :
  forall b lo lo' hi hi', chain lo hi a -> chain lo' hi' b ->
    (forall t, covered a t <-> covered b t) -> a = b.
Proof.
  induction a as [|[s1 e1] a IH]; intros [|[s2 e2] b] lo lo' hi hi' Ha Hb Hc.
  - reflexivity.
  - simpl in Hb. destruct Hb as (_ & Hb & _).
    exfalso. apply (covered_nil s2), Hc, covered_cons. simpl. lia.
  - simpl in Ha. destruct Ha as (_ & Ha & _).
    exfalso. apply (covered_nil s1), Hc, covered_cons. simpl. lia.
  - simpl in Ha, Hb.
    destruct Ha as (A1 & A2 & A3 & A4), Hb as (B1 & B2 & B3 & B4).
    assert (Hin : forall l x y t, chain (y + 1) x l -> covered l t -> y < t).
    { intros l x y t Hl Ht. pose proof (chain_covered_lo _ _ _ _ Hl Ht). lia. }
    assert (Hs : s1 = s2).
    { assert (C1 : covered ((s2, e2) :: b) s1)
        by (apply Hc, covered_cons; simpl; lia).
      assert (C2 : covered ((s1, e1) :: a) s2)
        by (apply Hc, covered_cons; simpl; lia).
      apply covered_cons in C1, C2. simpl in C1, C2.
      destruct C1 as [C1|C1]; [|apply (Hin _ _ _ _ B4) in C1];
        destruct C2 as [C2|C2]; [|apply (Hin _ _ _ _ A4) in C2| |
                                  apply (Hin _ _ _ _ A4) in C2]; lia. }
    subst s2.
    assert (He : e1 = e2).
    { destruct (Z.lt_trichotomy e1 e2) as [L|[L|L]]; [|exact L|].
      - assert (C : covered ((s1, e1) :: a) e1)
          by (apply Hc, covered_cons; simpl; lia).
        apply covered_cons in C. simpl in C.
        destruct C as [C|C]; [lia|apply (Hin _ _ _ _ A4) in C; lia].
      - assert (C : covered ((s1, e2) :: b) e2)
          by (apply Hc, covered_cons; simpl; lia).
        apply covered_cons in C. simpl in C.
        destruct C as [C|C]; [lia|apply (Hin _ _ _ _ B4) in C; lia]. }
    subst e2. f_equal.
    apply (IH b _ _ _ _ A4 B4). intros t. split; intros C.
    + pose proof (Hin _ _ _ _ A4 C).
      assert (C' : covered ((s1, e1) :: b) t)
        by (apply Hc, covered_cons; now right).
      apply covered_cons in C'. simpl in C'. destruct C'; [lia|auto].
    + pose proof (Hin _ _ _ _ B4 C).
      assert (C' : covered ((s1, e1) :: a) t)
        by (apply Hc, covered_cons; now right).
      apply covered_cons in C'. simpl in C'. destruct C'; [lia|auto].
Qed.

Lemma countZ_app (t : Z) (a b : list interval) :
  countZ t (a ++ b) = (countZ t a + countZ t b)%nat.
Proof. unfold countZ. now rewrite filter_app, length_app. Qed.

Lemma invertZ_chain (m : list interval) :
  forall cur, chain cur we m -> chain cur we (invertZ cur we m).
Proof.
  induction m as [|[s e] r IH]; intros cur H; simpl in *.
  - destruct (cur <? we) eqn:Hc; simpl; [|exact I].
    apply Z.ltb_lt in Hc. lia.
  - destruct H as (H1 & H2 & H3 & H4).
    replace (Z.max cur e) with e by lia.
    apply chain_weaken with (lo' := e) in H4; [|lia]. apply IH in H4.
    destruct (cur <? s) eqn:Hc; simpl.
    + apply Z.ltb_lt in Hc. repeat split; try lia.
      apply chain_weaken with (lo := e); [lia|exact H4].
    + apply chain_weaken with (lo := e); [lia|exact H4].
Qed.

(** Tiling on intervals: from the cursor to the end of the window each
    minute is in exactly one occupied or free interval. *)
Lemma tiling_Z (m : list interval) :
  forall cur t, chain cur we m ->
    countZ t (m ++ invertZ cur we m)
    = if (cur <=? t) && (t <? we) then 1%nat else 0%nat.
Proof.
  induction m as [|[s e] r IH]; intros cur t H.
  - simpl. unfold countZ. destruct (cur <? we) eqn:Hc; simpl.
    + unfold inside. simpl. destruct (cur <=? t), (t <? we); reflexivity.
    + apply Z.ltb_ge in Hc.
      destruct (cur <=? t) eqn:H1, (t <? we) eqn:H2; try reflexivity.
      apply Z.leb_le in H1. apply Z.ltb_lt in H2. lia.
  - simpl in H. destruct H as (H1 & H2 & H3 & H4).
    cbn [invertZ]. replace (Z.max cur e) with e by lia.
    apply chain_weaken with (lo' := e) in H4; [|lia].
    specialize (IH e t H4). rewrite countZ_app in IH.
    match goal with
    | |- context [?g ++ invertZ e we r] => set (G := g)
    end.
    change ((s, e) :: r) with ([(s, e)] ++ r).
    rewrite !countZ_app.
    assert (Hg : Nat.add (Nat.add (countZ t [(s, e)]) (countZ t G))
                   (if (e <=? t) && (t <? we) then 1%nat else 0%nat)
                 = if (cur <=? t) && (t <? we) then 1%nat else 0%nat).
    { unfold G, countZ, inside. simpl.
      destruct (cur <? s) eqn:Hc; simpl;
        repeat match goal with
               | |- context [?x <=? ?y] =>
                   let E := fresh in destruct (x <=? y) eqn:E;
                   [apply Z.leb_le in E|apply Z.leb_gt in E]
               | |- context [?x <? ?y] =>
                   let E := fresh in destruct (x <? y) eqn:E;
                   [apply Z.ltb_lt in E|apply Z.ltb_ge in E]
               end; simpl; try reflexivity; try lia. }
    rewrite <- Hg, <- IH. lia.
Qed.

End Intervals.

Arguments timeToMinutes : simpl never.
Arguments minutesToTime : simpl never.

(** ** The loops on strings and the loops on intervals agree *)

Section Refinement.

Variables ws we : Z.
Hypothesis ws_lo : 0 <= ws.
Hypothesis we_hi : we < 1440.

Lemma toInterval_start (x : TimeSlot) :
  validSlot x = true -> timeToMinutes (start x) = Num (fst (toInterval x)).
Proof.
  unfold validSlot. intros H. apply andb_true_iff in H as [H _].
  now destruct (minutesOf_spec _ H).
Qed.

Lemma toInterval_end (x : TimeSlot) :
  validSlot x = true -> timeToMinutes (end_ x) = Num (snd (toInterval x)).
Proof.
  unfold validSlot. intros H. apply andb_true_iff in H as [_ H].
  now destruct (minutesOf_spec _ H).
Qed.

Lemma absorb_refines (l : list TimeSlot) :
  forallb validSlot l = true ->
  forall (done : list interval) (cur : interval),
    0 <= snd cur <= we ->
    fold_left (mergeStep (Num ws) (Num we)) l (map toSlot (done ++ [cur]))
    = map toSlot (done ++ absorb ws we cur (map toInterval l)).
Proof.
  induction l as [|x l IH]; intros Hv done cur Hcur; [reflexivity|].
  simpl in Hv. apply andb_true_iff in Hv as [Hx Hl].
  cbn [fold_left map absorb]. unfold mergeStep at 2.
  rewrite (toInterval_start x Hx), (toInterval_end x Hx).
  destruct (toInterval x) as [a b]. cbn [fst snd clip JS.Math_max JS.Math_min
    JS.lift2 JS.ge JS.cmp2].
  destruct (Z.max a ws >=? Z.min b we) eqn:Hd; [now apply IH|].
  rewrite map_app, rev_app_distr. cbn [map rev app toSlot start end_].
  destruct (clock_print (snd cur)) as [Hp _]; [lia|]. rewrite Hp.
  cbn [JS.le JS.cmp2 JS.Math_max JS.lift2].
  rewrite Z.geb_leb in Hd. apply Z.leb_gt in Hd.
  destruct (Z.max a ws <=? snd cur) eqn:Hm.
  - rewrite rev_involutive.
    specialize (IH Hl done (fst cur, Z.max (snd cur) (Z.min b we))).
    rewrite map_app in IH. cbn [map toSlot fst snd] in IH.
    apply IH. lia.
  - replace (done ++ cur :: absorb ws we (Z.max a ws, Z.min b we)
                              (map toInterval l))
      with ((done ++ [cur])
              ++ absorb ws we (Z.max a ws, Z.min b we) (map toInterval l))
      by now rewrite <- app_assoc.
    rewrite <- IH by (auto; cbn [snd]; lia).
    now rewrite !map_app.
Qed.

Lemma mergeZ_refines (l : list TimeSlot) :
  forallb validSlot l = true ->
  fold_left (mergeStep (Num ws) (Num we)) l []
  = map toSlot (mergeZ ws we (map toInterval l)).
Proof.
  induction l as [|x l IH]; intros Hv; [reflexivity|].
  simpl in Hv. apply andb_true_iff in Hv as [Hx Hl].
  cbn [fold_left map mergeZ]. unfold mergeStep at 2.
  rewrite (toInterval_start x Hx), (toInterval_end x Hx).
  destruct (toInterval x) as [a b]. cbn [fst snd clip JS.Math_max JS.Math_min
    JS.lift2 JS.ge JS.cmp2].
  destruct (Z.max a ws >=? Z.min b we) eqn:Hd; [now apply IH|].
  rewrite Z.geb_leb in Hd. apply Z.leb_gt in Hd. cbn [rev].
  apply (absorb_refines l Hl [] (Z.max a ws, Z.min b we)). simpl. lia.
Qed.

Lemma invert_refines (m : list interval) :
  Forall inDay m ->
  forall (free : list TimeSlot) (cur : Z), 0 <= cur < 1440 -> 0 <= we ->
    (let (freeSlots, currentStart) :=
       fold_left invertStep (map toSlot m) (free, Num cur) in
     if JS.lt currentStart (Num we)
     then freeSlots ++ [mkTimeSlot (minutesToTime currentStart)
                          (minutesToTime (Num we))]
     else freeSlots)
    = free ++ map toSlot (invertZ cur we m).
Proof.
  induction m as [|[s e] r IH]; intros Hm free cur Hc Hw.
  - simpl. destruct (cur <? we); [reflexivity|]. simpl.
    now rewrite app_nil_r.
  - apply Forall_cons_iff in Hm as [[Hs He] Hr]. simpl in Hs, He.
    cbn [map fold_left invertZ]. unfold invertStep at 2.
    cbn [toSlot start end_ fst snd].
    destruct (clock_print s Hs) as [Ps _], (clock_print e He) as [Pe _].
    rewrite Ps, Pe. cbn [JS.lt JS.cmp2 JS.Math_max JS.lift2].
    rewrite IH; auto; [|lia].
    destruct (cur <? s); [|reflexivity].
    rewrite <- app_assoc. reflexivity.
Qed.

End Refinement.

Lemma covered_perm (l l' : list interval) (t : Z) :
  Permutation l l' -> covered l t <-> covered l' t.
Proof.
  intros Hp. unfold covered. rewrite !Exists_exists.
  split; intros (i & Hi & Ht); exists i; split; auto.
  - eapply Permutation_in; eauto.
  - eapply Permutation_in; [symmetry|]; eauto.
Qed.

(** ** [findFreeSlots] on well-formed input *)

Section FreeSlots.

Variables operatingStart operatingEnd : string.
Hypothesis start_ok : isClockTime operatingStart = true.
Hypothesis end_ok : isClockTime operatingEnd = true.

Let ws := minutesOf operatingStart.
Let we := minutesOf operatingEnd.

Lemma window_bounds : 0 <= ws < 1440 /\ 0 <= we < 1440.
Proof.
  destruct (minutesOf_spec _ start_ok) as (_ & H1 & _).
  destruct (minutesOf_spec _ end_ok) as (_ & H2 & _). auto.
Qed.

Lemma byStart_positive (x y : TimeSlot) :
  validSlot x = true -> validSlot y = true ->
  JS.positive (byStart x y)
  = (fst (toInterval y) <? fst (toInterval x)).
Proof.
  intros Hx Hy. unfold byStart.
  rewrite (toInterval_start x Hx), (toInterval_start y Hy). simpl.
  destruct (minutesOf (start y) <? minutesOf (start x)) eqn:E.
  - apply Z.ltb_lt in E. apply Z.ltb_lt. lia.
  - apply Z.ltb_ge in E. apply Z.ltb_ge. lia.
Qed.

Lemma validSlots_perm (l l' : list TimeSlot) :
  Permutation l l' -> validSlots l = true -> validSlots l' = true.
Proof.
  unfold validSlots. rewrite !forallb_forall. intros Hp H x Hx.
  apply H. eapply Permutation_in; [symmetry; exact Hp|exact Hx].
Qed.

Lemma sorted_valid (l : list TimeSlot) :
  validSlots l = true -> validSlots (JS.sort byStart l) = true.
Proof. apply validSlots_perm. symmetry. apply sort_perm. Qed.

Lemma sorted_intervals (l : list TimeSlot) :
  validSlots l = true ->
  StronglySorted byFst (map toInterval (JS.sort byStart l)).
Proof.
  intros Hv.
  assert (Hs : Sorted (fun x y => byFst (toInterval x) (toInterval y))
                 (JS.sort byStart l)).
  { apply sort_sorted with (P := fun x => validSlot x = true).
    - intros x y Hx Hy Hp. rewrite byStart_positive in Hp by auto.
      apply Z.ltb_lt in Hp. unfold byFst. lia.
    - intros x y Hx Hy Hp. rewrite byStart_positive in Hp by auto.
      apply Z.ltb_ge in Hp. exact Hp.
    - apply Forall_forall. unfold validSlots in Hv.
      now rewrite forallb_forall in Hv. }
  apply Sorted_StronglySorted in Hs.
  - induction Hs as [|x r Hr IH Hx]; simpl; constructor; auto.
    apply Forall_map. exact Hx.
  - intros x y z. unfold byFst. lia.
Qed.

Lemma chain_inDay (l : list interval) (lo hi : Z) :
  0 <= lo -> hi < 1440 -> chain lo hi l -> Forall inDay l.
Proof.
  intros Hlo Hhi H. apply chain_bounds in H.
  eapply Forall_impl; [|exact H]. unfold inDay. simpl. intros. lia.
Qed.

Lemma mergedZ_chain (l : list TimeSlot) :
  chain ws we (mergedZ l operatingStart operatingEnd).
Proof. apply mergeZ_chain. Qed.

Lemma mergedZ_inDay (l : list TimeSlot) :
  Forall inDay (mergedZ l operatingStart operatingEnd).
Proof.
  destruct window_bounds.
  apply (chain_inDay _ ws we); [lia|lia|apply mergedZ_chain].
Qed.

Lemma freeZ_chain (l : list TimeSlot) :
  chain ws we (freeZ l operatingStart operatingEnd).
Proof. apply invertZ_chain, mergedZ_chain. Qed.

Lemma freeZ_inDay (l : list TimeSlot) :
  Forall inDay (freeZ l operatingStart operatingEnd).
Proof.
  destruct window_bounds.
  apply (chain_inDay _ ws we); [lia|lia|apply freeZ_chain].
Qed.

Lemma mergedZ_covered (l : list TimeSlot) (t : Z) :
  validSlots l = true ->
  covered (mergedZ l operatingStart operatingEnd) t
  <-> covered (map (clip ws we) (map toInterval l)) t.
Proof.
  intros Hv. unfold mergedZ.
  rewrite mergeZ_covered by now apply sorted_intervals.
  apply covered_perm. do 2 apply Permutation_map. apply sort_perm.
Qed.

(** The merged occupied slots are the merged intervals, printed. *)
Lemma mergedOccupied_spec (l : list TimeSlot) :
  validSlots l = true ->
  mergedOccupied l operatingStart operatingEnd
  = map toSlot (mergedZ l operatingStart operatingEnd).
Proof.
  intros Hv. unfold mergedOccupied, mergedZ.
  destruct (minutesOf_spec _ start_ok) as (-> & H1 & _).
  destruct (minutesOf_spec _ end_ok) as (-> & H2 & _).
  apply mergeZ_refines; [lia|lia|]. now apply sorted_valid.
Qed.

(** The free slots are the gaps between the merged intervals, printed. *)
Lemma findFreeSlots_spec (l : list TimeSlot) :
  validSlots l = true ->
  findFreeSlots l operatingStart operatingEnd
  = map toSlot (freeZ l operatingStart operatingEnd).
Proof.
  intros Hv. unfold findFreeSlots. rewrite (mergedOccupied_spec l Hv).
  destruct (minutesOf_spec _ start_ok) as (Hs & H1 & _).
  destruct (minutesOf_spec _ end_ok) as (He & H2 & Hp).
  rewrite Hs, He.
  pose proof (invert_refines (minutesOf operatingEnd)
                (mergedZ l operatingStart operatingEnd) (mergedZ_inDay l)
                [] (minutesOf operatingStart) H1 (proj1 H2)) as Hi.
  rewrite Hp in Hi. exact Hi.
Qed.

End FreeSlots.

(** ** Intervals printed as slots *)

Lemma toSlot_facts (i : interval) :
  inDay i ->
  timeToMinutes (start (toSlot i)) = Num (fst i)
  /\ timeToMinutes (end_ (toSlot i)) = Num (snd i)
  /\ validSlot (toSlot i) = true
  /\ toInterval (toSlot i) = i.
Proof.
  intros [H1 H2]. destruct i as [a b]. simpl in H1, H2.
  destruct (clock_print a H1) as [Pa Va], (clock_print b H2) as [Pb Vb].
  unfold toSlot, validSlot, toInterval, minutesOf. simpl.
  rewrite Pa, Pb, Va, Vb. auto.
Qed.

Lemma contains_toSlot (t : Z) (i : interval) :
  inDay i -> contains t (toSlot i) = inside t i.
Proof.
  intros H. destruct (toSlot_facts i H) as (H1 & H2 & _).
  unfold contains, inside. now rewrite H1, H2.
Qed.

Lemma positiveSlot_toSlot (i : interval) :
  inDay i -> positiveSlot (toSlot i) = (fst i <? snd i).
Proof.
  intros H. destruct (toSlot_facts i H) as (H1 & H2 & _).
  unfold positiveSlot. now rewrite H1, H2.
Qed.

Lemma countAt_toSlot (t : Z) (l : list interval) :
  Forall inDay l -> countAt t (map toSlot l) = countZ t l.
Proof.
  unfold countAt, countZ. induction 1 as [|i l Hi Hl IH]; [reflexivity|].
  simpl. rewrite (contains_toSlot t i Hi).
  destruct (inside t i); simpl; now rewrite IH.
Qed.

Lemma toInterval_toSlot (l : list interval) :
  Forall inDay l -> map toInterval (map toSlot l) = l.
Proof.
  induction 1 as [|i l Hi Hl IH]; [reflexivity|]. simpl.
  destruct (toSlot_facts i Hi) as (_ & _ & _ & ->). now rewrite IH.
Qed.

Lemma validSlots_toSlot (l : list interval) :
  Forall inDay l -> validSlots (map toSlot l) = true.
Proof.
  induction 1 as [|i l Hi Hl IH]; [reflexivity|]. simpl.
  destruct (toSlot_facts i Hi) as (_ & _ & -> & _). exact IH.
Qed.

Lemma clip_inside (ws we : Z) (l : list interval) (lo : Z) :
  ws <= lo -> chain lo we l -> map (clip ws we) l = l.
Proof.
  revert lo. induction l as [|[s e] r IH]; intros lo Hlo H; [reflexivity|].
  simpl in H. destruct H as (H1 & H2 & H3 & H4). simpl.
  rewrite (IH (e + 1)); [|lia|exact H4].
  unfold clip. simpl. f_equal. f_equal; lia.
Qed.

(** ** The insertion-ordered map *)

Section MapFacts.

Context {V : Type}.
Implicit Types (m : list (string * V)) (k : string) (v : V).

Lemma get_set_same k v m : JS.get k (JS.set k v m) = Some v.
Proof.
  induction m as [|[k' v'] m IH]; simpl.
  - now rewrite String.eqb_refl.
  - destruct (String.eqb k k') eqn:E; simpl; rewrite ?String.eqb_refl, ?E; auto.
Qed.

Lemma get_set_other k k' v m :
  k <> k' -> JS.get k' (JS.set k v m) = JS.get k' m.
Proof.
  intros Hk. induction m as [|[k0 v0] m IH]; simpl.
  - destruct (String.eqb_spec k' k); [congruence|reflexivity].
  - destruct (String.eqb_spec k k0); simpl.
    + subst k0. destruct (String.eqb_spec k' k); [congruence|reflexivity].
    + destruct (String.eqb_spec k' k0); auto.
Qed.

Lemma in_keys_set k k' v m :
  In k' (map fst (JS.set k v m)) <-> k' = k \/ In k' (map fst m).
Proof.
  induction m as [|[k0 v0] m IH]; simpl.
  - intuition.
  - destruct (String.eqb_spec k k0); simpl.
    + subst. intuition.
    + rewrite IH. intuition.
Qed.

Lemma nodup_set k v m :
  NoDup (map fst m) -> NoDup (map fst (JS.set k v m)).
Proof.
  induction m as [|[k0 v0] m IH]; simpl; intros H.
  - constructor; [intros []|constructor].
  - inversion H as [|? ? Hn Hd]; subst.
    destruct (String.eqb_spec k k0); simpl.
    + subst. now constructor.
    + constructor; [|auto]. rewrite in_keys_set. intros [E|E]; congruence.
Qed.

Lemma get_In k v m : JS.get k m = Some v -> In (k, v) m.
Proof.
  induction m as [|[k0 v0] m IH]; simpl; [discriminate|].
  destruct (String.eqb_spec k k0); intros H.
  - left. congruence.
  - right. auto.
Qed.

Lemma In_get k v m :
  NoDup (map fst m) -> In (k, v) m -> JS.get k m = Some v.
Proof.
  induction m as [|[k0 v0] m IH]; simpl; intros Hn H; [easy|].
  destruct H as [H|H].
  - inversion H; subst. now rewrite String.eqb_refl.
  - inversion Hn as [|? ? Hx Hd]; subst.
    destruct (String.eqb_spec k k0).
    + subst. exfalso. apply Hx. now apply (in_map fst) in H.
    + auto.
Qed.

Lemma has_keys k m : JS.has k m = true <-> In k (map fst m).
Proof.
  unfold JS.has. induction m as [|[k0 v0] m IH]; simpl.
  - split; [discriminate|intros []].
  - destruct (String.eqb_spec k k0).
    + subst. intuition.
    + rewrite IH. intuition congruence.
Qed.

Lemma get_None_keys k m : JS.get k m = None <-> ~ In k (map fst m).
Proof.
  rewrite <- has_keys. unfold JS.has.
  destruct (JS.get k m); split; intros H; easy.
Qed.

End MapFacts.

Lemma slotsOn_set_same (dy : string) (l : list TimeSlot) (dm : DayMap) :
  slotsOn dy (JS.set dy l dm) = l.
Proof. unfold slotsOn. now rewrite get_set_same. Qed.

Lemma slotsOn_set_other (dy dy' : string) (l : list TimeSlot) (dm : DayMap) :
  dy <> dy' -> slotsOn dy' (JS.set dy l dm) = slotsOn dy' dm.
Proof. intros H. unfold slotsOn. now rewrite get_set_other. Qed.

(** ** [mergeRoomSchedules] groups the records by room and day *)

Lemma occupancyOf_app (l l' : list RoomSchedule) (rm dy : string) :
  occupancyOf (l ++ l') rm dy = occupancyOf l rm dy ++ occupancyOf l' rm dy.
Proof. unfold occupancyOf. now rewrite filter_app, flat_map_app. Qed.

Lemma occupancyOf_absent (l : list RoomSchedule) (rm dy : string) :
  ~ In rm (map room l) -> occupancyOf l rm dy = [].
Proof.
  unfold occupancyOf. induction l as [|x l IH]; simpl; [reflexivity|].
  intros H. destruct (String.eqb_spec (room x) rm); simpl.
  - exfalso. apply H. now left.
  - apply IH. intros Hin. apply H. now right.
Qed.

(** The aggregate after one more record. *)
Lemma mergeRoomSchedules_snoc (l : list RoomSchedule) (x : RoomSchedule) :
  mergeRoomSchedules (l ++ [x]) = addSchedule (mergeRoomSchedules l) x.
Proof. unfold mergeRoomSchedules. now rewrite fold_left_app. Qed.

Lemma addSchedule_get_same (m : list (string * DayMap)) (x : RoomSchedule) :
  exists dm,
    JS.get (room x) (addSchedule m x) = Some dm
    /\ forall dy,
         slotsOn dy dm
         = (match JS.get (room x) m with
            | Some dm0 => slotsOn dy dm0
            | None => []
            end)
           ++ (if String.eqb (day x) dy then occupied x else []).
Proof.
  unfold addSchedule.
  set (m1 := if negb (JS.has (room x) m) then JS.set (room x) [] m else m).
  set (dm0 := match JS.get (room x) m1 with Some d => d | None => [] end).
  set (dm1 := if negb (JS.has (day x) dm0) then JS.set (day x) [] dm0 else dm0).
  eexists. split; [apply get_set_same|].
  assert (H0 : forall dy, slotsOn dy dm0
                          = match JS.get (room x) m with
                            | Some d => slotsOn dy d
                            | None => []
                            end).
  { intros dy. unfold dm0, m1, JS.has.
    destruct (JS.get (room x) m) eqn:E; simpl; [now rewrite E|].
    now rewrite get_set_same. }
  assert (H1 : forall dy, slotsOn dy dm1 = slotsOn dy dm0).
  { intros dy. unfold dm1, JS.has.
    destruct (JS.get (day x) dm0) eqn:E; simpl; [reflexivity|].
    destruct (String.eqb_spec (day x) dy).
    - subst dy. rewrite slotsOn_set_same. unfold slotsOn. now rewrite E.
    - now rewrite slotsOn_set_other. }
  intros dy. destruct (String.eqb_spec (day x) dy).
  - subst dy. now rewrite slotsOn_set_same, H1, H0.
  - rewrite slotsOn_set_other by auto. now rewrite H1, H0, app_nil_r.
Qed.

Lemma addSchedule_get_other (m : list (string * DayMap)) (x : RoomSchedule)
    (rm : string) :
  room x <> rm -> JS.get rm (addSchedule m x) = JS.get rm m.
Proof.
  intros H. unfold addSchedule. rewrite get_set_other by auto.
  destruct (negb (JS.has (room x) m)); [|reflexivity].
  now rewrite get_set_other.
Qed.

Lemma addSchedule_keys (m : list (string * DayMap)) (x : RoomSchedule)
    (rm : string) :
  In rm (map fst (addSchedule m x)) <-> rm = room x \/ In rm (map fst m).
Proof.
  unfold addSchedule. rewrite in_keys_set.
  destruct (negb (JS.has (room x) m)); [|reflexivity].
  rewrite in_keys_set. tauto.
Qed.

Lemma addSchedule_nodup (m : list (string * DayMap)) (x : RoomSchedule) :
  NoDup (map fst m) -> NoDup (map fst (addSchedule m x)).
Proof.
  intros H. unfold addSchedule. apply nodup_set.
  destruct (negb (JS.has (room x) m)); [now apply nodup_set|exact H].
Qed.

(** The aggregate has one entry per room of the records, and reading a day
    of a room gives the slots of all its records for that day. *)
Lemma mergeRoomSchedules_spec (l : list RoomSchedule) :
  NoDup (map fst (mergeRoomSchedules l))
  /\ (forall rm, In rm (map fst (mergeRoomSchedules l)) <-> In rm (map room l))
  /\ (forall rm dm dy, JS.get rm (mergeRoomSchedules l) = Some dm ->
                       slotsOn dy dm = occupancyOf l rm dy).
Proof.
  induction l as [|x l (IK & IR & IO)] using rev_ind.
  - split; [constructor|]. split; [reflexivity|]. discriminate.
  - rewrite mergeRoomSchedules_snoc.
    split; [now apply addSchedule_nodup|]. split.
    + intros rm. rewrite addSchedule_keys, IR, map_app, in_app_iff. simpl.
      intuition.
    + intros rm dm dy Hg. rewrite occupancyOf_app.
      destruct (String.eqb_spec (room x) rm) as [E|E].
      * subst rm. destruct (addSchedule_get_same (mergeRoomSchedules l) x)
          as (dm' & Hg' & Hs).
        rewrite Hg in Hg'. inversion Hg'; subst dm'. rewrite Hs.
        unfold occupancyOf at 2. simpl. rewrite String.eqb_refl. simpl.
        f_equal; [|destruct (String.eqb (day x) dy); simpl;
                   now rewrite ?app_nil_r].
        destruct (JS.get (room x) (mergeRoomSchedules l)) eqn:G.
        -- now apply IO.
        -- symmetry. apply occupancyOf_absent. rewrite <- IR.
           now apply get_None_keys.
      * rewrite addSchedule_get_other in Hg by auto.
        rewrite (IO _ _ _ Hg).
        rewrite (occupancyOf_absent [x]); [now rewrite app_nil_r|].
        simpl. tauto.
Qed.

(** ** The query on well-formed schedules *)

Lemma validSlots_occupancyOf (l : list RoomSchedule) (rm dy : string) :
  validSchedules l = true -> validSlots (occupancyOf l rm dy) = true.
Proof.
  unfold validSchedules, validSlots, occupancyOf. rewrite !forallb_forall.
  intros H x Hx. apply in_flat_map in Hx as (sch & Hs & Hx).
  apply filter_In in Hs as [Hs _]. specialize (H sch Hs).
  rewrite forallb_forall in H. now apply H.
Qed.

Lemma slotResults_toSlot (rm dy : string) (targetTime : option string)
    (minDuration : option number) (i : interval) :
  inDay i ->
  slotResults rm dy targetTime minDuration (toSlot i)
  = if givenNumber minDuration
       && JS.lt (Num (snd i - fst i)) (numberOf minDuration)
    then []
    else if givenString targetTime
            && (JS.lt (timeToMinutes (stringOf targetTime)) (Num (fst i))
                || JS.ge (timeToMinutes (stringOf targetTime)) (Num (snd i)))
    then []
    else [mkFreeRoom rm dy (minutesToTime (Num (fst i)))
            (minutesToTime (Num (snd i))) (Num (snd i - fst i))].
Proof.
  intros H. destruct (toSlot_facts i H) as (H1 & H2 & _).
  unfold slotResults. rewrite H1, H2. reflexivity.
Qed.

Lemma roomResults_spec (rm dy : string) (dm : DayMap)
    (targetTime : option string) (minDuration : option number) :
  validSlots (slotsOn dy dm) = true ->
  roomResults dy targetTime minDuration (rm, dm)
  = flat_map (slotResults rm dy targetTime minDuration)
      (map toSlot (freeZ (slotsOn dy dm)
                     (start OPERATING_HOURS) (end_ OPERATING_HOURS))).
Proof.
  intros Hv. unfold roomResults.
  now rewrite (findFreeSlots_spec (start OPERATING_HOURS)
                 (end_ OPERATING_HOURS) eq_refl eq_refl _ Hv).
Qed.

Lemma findFreeRooms_perm (schedules : list RoomSchedule) (dy : string)
    (targetTime : option string) (minDuration : option number) :
  Permutation (findFreeRooms schedules dy targetTime minDuration)
    (flat_map (roomResults dy targetTime minDuration)
       (mergeRoomSchedules schedules)).
Proof. apply sort_perm. Qed.

(** The results are the records of the free intervals of the rooms that
    occur in the schedules. *)
Lemma findFreeRooms_in (schedules : list RoomSchedule) (dy : string)
    (targetTime : option string) (minDuration : option number)
    (res : FreeRoom) :
  validSchedules schedules = true ->
  In res (findFreeRooms schedules dy targetTime minDuration)
  <-> exists rm i,
        In rm (map room schedules)
        /\ In i (freeZ (occupancyOf schedules rm dy)
                   (start OPERATING_HOURS) (end_ OPERATING_HOURS))
        /\ In res (slotResults rm dy targetTime minDuration (toSlot i)).
Proof.
  intros Hv.
  destruct (mergeRoomSchedules_spec schedules) as (HK & HR & HO).
  split.
  - intros H. apply (Permutation_in _ (findFreeRooms_perm _ _ _ _)) in H.
    apply in_flat_map in H as ([rm dm] & He & H).
    pose proof (In_get _ _ _ HK He) as Hg.
    pose proof (HO _ _ dy Hg) as Ho.
    rewrite roomResults_spec in H
      by (rewrite Ho; now apply validSlots_occupancyOf).
    apply in_flat_map in H as (slot & Hs & H).
    apply in_map_iff in Hs as (i & <- & Hi). rewrite Ho in Hi.
    exists rm, i. split; [|auto].
    apply HR. now apply (in_map fst) in He.
  - intros (rm & i & Hrm & Hi & H).
    apply (Permutation_in _ (Permutation_sym (findFreeRooms_perm _ _ _ _))).
    apply HR, has_keys in Hrm. unfold JS.has in Hrm.
    destruct (JS.get rm (mergeRoomSchedules schedules)) as [dm|] eqn:Hg;
      [|discriminate].
    pose proof (HO _ _ dy Hg) as Ho.
    apply in_flat_map. exists (rm, dm). split; [now apply get_In|].
    rewrite roomResults_spec
      by (rewrite Ho; now apply validSlots_occupancyOf).
    apply in_flat_map. exists (toSlot i). split; [|exact H].
    apply in_map. now rewrite Ho.
Qed.

(** A free interval of the default window is a positive stretch of the
    day. *)
Lemma freeZ_interval (l : list TimeSlot) (i : interval) :
  In i (freeZ l (start OPERATING_HOURS) (end_ OPERATING_HOURS)) ->
  inDay i /\ fst i < snd i.
Proof.
  intros Hi. split.
  - pose proof (freeZ_inDay (start OPERATING_HOURS) (end_ OPERATING_HOURS)
                  eq_refl eq_refl l) as H.
    rewrite Forall_forall in H. now apply H.
  - pose proof (freeZ_chain (start OPERATING_HOURS) (end_ OPERATING_HOURS) l)
      as H.
    apply chain_bounds in H. rewrite Forall_forall in H.
    specialize (H i Hi). lia.
Qed.

(** ** Results room by room *)

Lemma slotResults_room (rm dy : string) (targetTime : option string)
    (minDuration : option number) (slot : TimeSlot) (res : FreeRoom) :
  In res (slotResults rm dy targetTime minDuration slot) -> fr_room res = rm.
Proof.
  unfold slotResults.
  destruct (givenNumber minDuration && _); [intros []|].
  destruct (givenString targetTime && _); [intros []|].
  intros [<-|[]]. reflexivity.
Qed.

Lemma roomResults_room (dy : string) (targetTime : option string)
    (minDuration : option number) (rm : string) (dm : DayMap)
    (res : FreeRoom) :
  In res (roomResults dy targetTime minDuration (rm, dm)) -> fr_room res = rm.
Proof.
  unfold roomResults. intros H. apply in_flat_map in H as (slot & _ & H).
  now apply slotResults_room in H.
Qed.

Lemma filter_none {A : Type} (f : A -> bool) (l : list A) :
  (forall x, In x l -> f x = false) -> filter f l = [].
Proof.
  induction l as [|x l IH]; simpl; intros H; [reflexivity|].
  rewrite (H x) by now left. apply IH. intros y Hy. apply H. now right.
Qed.

(** With a target time, a free interval gives a record only if it contains
    the target. *)
Lemma targeted_results_count (rm dy T : string) (minDuration : option number)
    (l : list interval) :
  isClockTime T = true -> Forall inDay l ->
  (List.length (flat_map (slotResults rm dy (Some T) minDuration)
                  (map toSlot l))
   <= countZ (minutesOf T) l)%nat.
Proof.
  intros HT. destruct (minutesOf_spec T HT) as (Ht & _ & _).
  assert (Hg : givenString (Some T) = true)
    by (destruct T; [discriminate|reflexivity]).
  induction 1 as [|i l Hi Hl IH]; [simpl; lia|].
  cbn [map flat_map]. rewrite length_app, (slotResults_toSlot _ _ _ _ _ Hi).
  rewrite Hg. cbn [stringOf andb]. rewrite Ht. cbn [JS.lt JS.ge JS.cmp2].
  unfold countZ in *. cbn [filter]. unfold inside at 1.
  destruct (givenNumber minDuration && _);
    destruct (minutesOf T <? fst i) eqn:E1;
    destruct (minutesOf T >=? snd i) eqn:E2;
    destruct (fst i <=? minutesOf T) eqn:E3;
    destruct (minutesOf T <? snd i) eqn:E4; simpl; lia.
Qed.

Lemma roomResults_at_most_one (rm dy T : string)
    (minDuration : option number) (dm : DayMap) :
  isClockTime T = true -> validSlots (slotsOn dy dm) = true ->
  (List.length (roomResults dy (Some T) minDuration (rm, dm)) <= 1)%nat.
Proof.
  intros HT Hv. rewrite roomResults_spec by exact Hv.
  set (l := slotsOn dy dm) in *.
  etransitivity.
  - apply targeted_results_count; [exact HT|].
    apply (freeZ_inDay (start OPERATING_HOURS) (end_ OPERATING_HOURS)
             eq_refl eq_refl).
  - pose proof (tiling_Z _ _ _ (minutesOf T)
                  (mergedZ_chain (start OPERATING_HOURS)
                     (end_ OPERATING_HOURS) l)) as Ht.
    rewrite countZ_app in Ht. fold (freeZ l (start OPERATING_HOURS)
                                      (end_ OPERATING_HOURS)) in Ht.
    destruct (_ && _) in Ht; lia.
Qed.

Lemma results_per_room (rm dy T : string) (minDuration : option number)
    (m : list (string * DayMap)) :
  isClockTime T = true ->
  NoDup (map fst m) ->
  (forall k dm, In (k, dm) m -> validSlots (slotsOn dy dm) = true) ->
  (List.length (resultsOfRoom rm
                  (flat_map (roomResults dy (Some T) minDuration) m))
   <= 1)%nat.
Proof.
  intros HT. unfold resultsOfRoom.
  induction m as [|[k dm] m IH]; intros Hn Hv; [simpl; lia|].
  cbn [flat_map map fst] in *. rewrite filter_app, length_app.
  inversion Hn as [|? ? Hk Hn']; subst.
  destruct (String.eqb_spec k rm) as [E|E].
  - subst k. rewrite (filter_none _ (flat_map _ m)).
    + rewrite Nat.add_0_r. etransitivity; [apply filter_length_le|].
      apply roomResults_at_most_one; [exact HT|].
      apply (Hv rm). now left.
    + intros res Hres. apply in_flat_map in Hres as ([k' dm'] & Hin & Hres).
      apply roomResults_room in Hres. rewrite Hres.
      destruct (String.eqb_spec k' rm) as [e|]; [|reflexivity].
      exfalso. apply Hk. apply (in_map fst) in Hin. rewrite <- e. exact Hin.
  - rewrite (filter_none _ (roomResults _ _ _ _)).
    + simpl. apply IH; [exact Hn'|]. intros k' dm' Hin.
      apply (Hv k'). now right.
    + intros res Hres. apply roomResults_room in Hres. rewrite Hres.
      now destruct (String.eqb_spec k rm).
Qed.

(** ** Room numbers and the final order *)

Lemma isDigit_not (c d : ascii) :
  JS.isDigit c = true -> JS.isDigit d = false -> Ascii.eqb c d = false.
Proof.
  intros Hc Hd. destruct (Ascii.eqb_spec c d); [|reflexivity].
  subst. congruence.
Qed.

Lemma digitPrefix_some (s : string) :
  forall a, exists n, JS.digitPrefix (Some a) s = Some n.
Proof.
  induction s as [|c s IH]; intros a; simpl; [eauto|].
  destruct (JS.isDigit c); eauto.
Qed.

Lemma parseInt_roomId (r : string) :
  isRoomId r = true -> exists n, JS.parseInt r = Num n.
Proof.
  unfold isRoomId. destruct r as [|c r]; [discriminate|].
  cbn [String.eqb negb andb allDigits]. intros H.
  apply andb_true_iff in H as [H _]. apply andb_true_iff in H as [Hc _].
  unfold JS.parseInt.
  rewrite (isDigit_not c "-" Hc eq_refl), (isDigit_not c "+" Hc eq_refl).
  cbn [JS.digitPrefix]. rewrite Hc.
  destruct (digitPrefix_some r (10 * 0 + JS.digitVal c)) as (n & ->). eauto.
Qed.

Lemma resultOrder_trans (x y z : FreeRoom) :
  resultOrder x y -> resultOrder y z -> resultOrder x z.
Proof.
  intros (dx & dy & rx & ry & H1 & H2 & H3 & H4 & H5)
         (dy' & dz & ry' & rz & K1 & K2 & K3 & K4 & K5).
  rewrite H2 in K1. rewrite H4 in K3. inversion K1. inversion K3. subst.
  exists dx, dz, rx, rz. repeat split; auto. lia.
Qed.

Lemma byDurationThenRoom_order (x y : FreeRoom) (dx dy rx ry : Z) :
  duration x = Num dx -> duration y = Num dy ->
  JS.parseInt (fr_room x) = Num rx -> JS.parseInt (fr_room y) = Num ry ->
  if JS.positive (byDurationThenRoom x y)
  then resultOrder y x else resultOrder x y.
Proof.
  intros Hx Hy Rx Ry. unfold byDurationThenRoom, resultOrder.
  rewrite Hx, Hy, Rx, Ry. simpl.
  destruct (dy =? dx) eqn:E; simpl.
  - apply Z.eqb_eq in E. subst dy.
    destruct (0 <? rx - ry) eqn:P.
    + apply Z.ltb_lt in P. exists dx, dx, ry, rx. repeat split; auto. lia.
    + apply Z.ltb_ge in P. exists dx, dx, rx, ry. repeat split; auto. lia.
  - apply Z.eqb_neq in E.
    destruct (0 <? dy - dx) eqn:P.
    + apply Z.ltb_lt in P. exists dy, dx, ry, rx. repeat split; auto. lia.
    + apply Z.ltb_ge in P. exists dx, dy, rx, ry. repeat split; auto. lia.
Qed.

(** ** Splitting at the colon and reading digits *)

Lemma split_no_sep (c : ascii) (s : string) :
  hasChar c s = false -> JS.split c s = [s].
Proof.
  induction s as [|d s IH]; simpl; [reflexivity|].
  intros H. apply orb_false_iff in H as [Hd Hs].
  rewrite Hd, (IH Hs). reflexivity.
Qed.

Lemma split_at_sep (c : ascii) (h m : string) :
  hasChar c h = false ->
  JS.split c (h ++ String c m) = h :: JS.split c m.
Proof.
  induction h as [|d h IH]; simpl.
  - intros _. now rewrite Ascii.eqb_refl.
  - intros H. apply orb_false_iff in H as [Hd Hs].
    rewrite Hd, (IH Hs). reflexivity.
Qed.

Lemma digitsValue_allDigits (s : string) :
  forall acc v, JS.digitsValue acc s = Some v -> allDigits s = true.
Proof.
  induction s as [|c s IH]; simpl; intros acc v H; [reflexivity|].
  destruct (JS.isDigit c); [|discriminate]. simpl. eauto.
Qed.

Lemma allDigits_no_char (c : ascii) (s : string) :
  JS.isDigit c = false -> allDigits s = true -> hasChar c s = false.
Proof.
  intros Hc. induction s as [|d s IH]; simpl; [reflexivity|].
  intros H. apply andb_true_iff in H as [Hd Hs].
  now rewrite (isDigit_not d c Hd Hc), (IH Hs).
Qed.

Lemma Number_digits (s : string) (v : Z) :
  JS.unsignedValue s = Some v -> JS.Number s = Num v.
Proof.
  destruct s as [|c s]; [discriminate|]. intros H.
  pose proof (digitsValue_allDigits _ _ _ H) as Hd.
  simpl in Hd. apply andb_true_iff in Hd as [Hc _].
  unfold JS.Number.
  rewrite (isDigit_not c "-" Hc eq_refl), (isDigit_not c "+" Hc eq_refl).
  now rewrite H.
Qed.

Lemma unsignedValue_no_colon (s : string) (v : Z) :
  JS.unsignedValue s = Some v -> hasChar ":" s = false.
Proof.
  destruct s as [|c s]; [discriminate|]. intros H.
  apply (allDigits_no_char ":"); [reflexivity|].
  exact (digitsValue_allDigits _ _ _ H).
Qed.

(** ** Results from the slots of each room, with no assumption on the
       data *)

Lemma findFreeRooms_in_slots (schedules : list RoomSchedule) (dy : string)
    (targetTime : option string) (minDuration : option number)
    (res : FreeRoom) :
  In res (findFreeRooms schedules dy targetTime minDuration)
  <-> exists rm slot,
        In rm (map room schedules)
        /\ In slot (findFreeSlots (occupancyOf schedules rm dy)
                      (start OPERATING_HOURS) (end_ OPERATING_HOURS))
        /\ In res (slotResults rm dy targetTime minDuration slot).
Proof.
  destruct (mergeRoomSchedules_spec schedules) as (HK & HR & HO).
  split.
  - intros H. apply (Permutation_in _ (findFreeRooms_perm _ _ _ _)) in H.
    apply in_flat_map in H as ([rm dm] & He & H).
    pose proof (In_get _ _ _ HK He) as Hg.
    unfold roomResults in H. rewrite (HO _ _ dy Hg) in H.
    apply in_flat_map in H as (slot & Hs & H).
    exists rm, slot. split; [|auto].
    apply HR. now apply (in_map fst) in He.
  - intros (rm & slot & Hrm & Hs & H).
    apply (Permutation_in _ (Permutation_sym (findFreeRooms_perm _ _ _ _))).
    apply HR, has_keys in Hrm. unfold JS.has in Hrm.
    destruct (JS.get rm (mergeRoomSchedules schedules)) as [dm|] eqn:Hg;
      [|discriminate].
    apply in_flat_map. exists (rm, dm). split; [now apply get_In|].
    unfold roomResults. rewrite (HO _ _ dy Hg).
    apply in_flat_map. exists slot. auto.
Qed.

(** ** Roster completion *)

Lemma fold_left_invariant {A B : Type} (P : A -> Prop) (f : A -> B -> A)
    (l : list B) :
  (forall a x, In x l -> P a -> P (f a x)) ->
  forall a, P a -> P (fold_left f l a).
Proof.
  induction l as [|x l IH]; simpl; intros Hf a Ha; [exact Ha|].
  apply IH; [intros; apply Hf; auto|]. apply Hf; auto.
Qed.

Lemma in_set {V : Type} (k k' : string) (v v' : V) (m : list (string * V)) :
  In (k', v') (JS.set k v m) -> (k' = k /\ v' = v) \/ In (k', v') m.
Proof.
  induction m as [|[k0 v0] m IH]; simpl.
  - intros [H|[]]. inversion H. auto.
  - destruct (String.eqb_spec k k0); simpl; intros [H|H].
    + inversion H. auto.
    + auto.
    + auto.
    + destruct (IH H); auto.
Qed.

Lemma has_set {V : Type} (k k' : string) (v : V) (m : list (string * V)) :
  JS.has k' (JS.set k v m) = true <-> k' = k \/ JS.has k' m = true.
Proof. rewrite !has_keys. apply in_keys_set. Qed.

Lemma hasChar_app (c : ascii) (a b : string) :
  hasChar c (a ++ String c b) = true.
Proof.
  induction a as [|d a IH]; simpl.
  - now rewrite Ascii.eqb_refl.
  - rewrite IH. apply orb_true_r.
Qed.

(** A key names one room when room and day hold no dash. *)
Lemma scheduleKey_room (rm dy a b : string) :
  hasChar "-" rm = false -> hasChar "-" dy = false ->
  scheduleKey a b = scheduleKey rm dy -> a = rm.
Proof.
  unfold scheduleKey. cbn [append]. intros Hrm Hdy. revert a.
  induction rm as [|c rm IH]; intros [|d a] H; simpl in *.
  - reflexivity.
  - inversion H as [[Hd Ht]]. rewrite <- Ht, hasChar_app in Hdy. discriminate.
  - inversion H as [[Hc Ht]]. subst c. simpl in Hrm. discriminate.
  - inversion H as [[Hc Ht]]. subst d.
    apply orb_false_iff in Hrm as [_ Hrm]. f_equal. now apply IH.
Qed.

Lemma addExisting_keyed m x : keyed m -> keyed (addExisting m x).
Proof.
  unfold keyed, addExisting. intros Hm k rec.
  destruct (JS.get _ m) as [existing|] eqn:G; intros H;
    apply in_set in H as [[-> ->]|H]; auto.
  apply get_In in G. apply (Hm _ _ G).
Qed.

Lemma addExisting_fromData schedules m x :
  In x schedules -> fromData schedules m ->
  fromData schedules (addExisting m x).
Proof.
  unfold fromData, addExisting. intros Hx Hm k rec.
  destruct (JS.get _ m) as [existing|] eqn:G; intros H;
    apply in_set in H as [[-> ->]|H]; eauto.
  apply get_In in G. apply (Hm _ _ G).
Qed.

Lemma addExisting_has m x k :
  JS.has k (addExisting m x) = true
  <-> k = scheduleKey (room x) (day x) \/ JS.has k m = true.
Proof.
  unfold addExisting.
  destruct (JS.get _ m) as [existing|]; apply has_set.
Qed.

Lemma ensureKey_keyed m p : keyed m -> keyed (ensureKey m p).
Proof.
  unfold keyed, ensureKey. destruct p as [rm dy]. intros Hm k rec.
  destruct (negb _); [|apply Hm].
  intros H. apply in_set in H as [[-> ->]|H]; auto.
Qed.

Lemma ensureKey_origin schedules m p :
  fromDataOrEmpty schedules m -> fromDataOrEmpty schedules (ensureKey m p).
Proof.
  unfold fromDataOrEmpty, ensureKey. destruct p as [rm dy]. intros Hm k rec.
  destruct (negb _); [|apply Hm].
  intros H. apply in_set in H as [[-> ->]|H]; eauto.
Qed.

Lemma ensureKey_has m p k :
  JS.has k (ensureKey m p) = true
  <-> (k = scheduleKey (fst p) (snd p) \/ JS.has k m = true).
Proof.
  unfold ensureKey. destruct p as [rm dy]. simpl.
  destruct (JS.has (scheduleKey rm dy) m) eqn:E; simpl.
  - split; [auto|]. intros [->|H]; auto.
  - apply has_set.
Qed.

Lemma fold_has {B : Type} (f : list (string * RoomSchedule) -> B
                               -> list (string * RoomSchedule))
    (key : B -> string) (l : list B) :
  (forall m x k, JS.has k (f m x) = true
                 <-> (k = key x \/ JS.has k m = true)) ->
  forall m k, JS.has k (fold_left f l m) = true
              <-> (In k (map key l) \/ JS.has k m = true).
Proof.
  intros Hf. induction l as [|x l IH]; intros m k; simpl.
  - tauto.
  - rewrite IH, Hf. intuition.
Qed.

(** The completed map, for any list of pairs to ensure: its keys, and where
    its records come from. *)
Lemma completed_map (pairs : list (string * string))
    (schedules : list RoomSchedule) :
  let m := fold_left ensureKey pairs (fold_left addExisting schedules []) in
  keyed m /\ fromDataOrEmpty schedules m
  /\ forall k, JS.has k m = true
               <-> In k (map (fun p => scheduleKey (fst p) (snd p)) pairs)
                   \/ In k (map (fun x => scheduleKey (room x) (day x))
                              schedules).
Proof.
  intros m. subst m. split; [|split].
  - apply fold_left_invariant; [intros; now apply ensureKey_keyed|].
    apply fold_left_invariant; [intros; now apply addExisting_keyed|].
    intros k rec [].
  - apply fold_left_invariant; [intros; now apply ensureKey_origin|].
    assert (H : fromData schedules (fold_left addExisting schedules [])).
    { apply fold_left_invariant;
        [intros; now apply addExisting_fromData|intros k rec []]. }
    intros k rec Hin. left. eapply H; eauto.
  - intros k.
    rewrite (fold_has ensureKey (fun p => scheduleKey (fst p) (snd p)))
      by apply ensureKey_has.
    rewrite (fold_has addExisting (fun x => scheduleKey (room x) (day x)))
      by apply addExisting_has.
    unfold JS.has at 1. simpl. intuition discriminate.
Qed.

Lemma getCompleteSchedules_eq (schedules : list RoomSchedule) :
  getCompleteSchedules schedules
  = map snd (fold_left ensureKey rosterPairs
               (fold_left addExisting schedules [])).
Proof. reflexivity. Qed.

(** In a keyed map, a key of a dash-free room and day holds a record of that
    room. *)
Lemma keyed_room (m : list (string * RoomSchedule)) (rm dy : string) :
  keyed m ->
  hasChar "-" rm = false -> hasChar "-" dy = false ->
  JS.has (scheduleKey rm dy) m = true ->
  In rm (map room (map snd m)).
Proof.
  intros HK Hrm Hdy Hh. unfold JS.has in Hh.
  destruct (JS.get (scheduleKey rm dy) m) as [rec|] eqn:G; [|discriminate].
  apply get_In in G. pose proof (HK _ _ G) as Hk.
  symmetry in Hk. apply scheduleKey_room in Hk; auto. subst rm.
  apply in_map_iff. exists rec. split; [reflexivity|].
  apply in_map_iff. exists (scheduleKey (room rec) dy, rec). auto.
Qed.

Lemma occupancyOf_empty (l : list RoomSchedule) (rm dy : string) :
  (forall rec, In rec l -> room rec = rm -> day rec = dy ->
               occupied rec = []) ->
  occupancyOf l rm dy = [].
Proof.
  unfold occupancyOf. induction l as [|x l IH]; simpl; intros H; auto.
  destruct (String.eqb_spec (room x) rm); simpl; [|auto].
  destruct (String.eqb_spec (day x) dy); simpl; [|auto].
  rewrite (H x) by auto. simpl. auto.
Qed.

(** * The properties of the specification *)

(** C1, tiling invariant.  For well-formed clock times, the merged occupied
    slots and the free slots of [findFreeSlots] tile the operating window:
    read in minutes, every minute of the window lies in exactly one of
    those slots, no minute outside the window lies in any, and every slot
    has a positive length. *)
Theorem tiling_invariant (occupiedSlots : list TimeSlot)
    (operatingStart operatingEnd : string) :
  isClockTime operatingStart = true ->
  isClockTime operatingEnd = true ->
  validSlots occupiedSlots = true ->
  let merged := mergedOccupied occupiedSlots operatingStart operatingEnd in
  let free := findFreeSlots occupiedSlots operatingStart operatingEnd in
  (forall t : Z,
      countAt t (merged ++ free)
      = if (minutesOf operatingStart <=? t) && (t <? minutesOf operatingEnd)
        then 1%nat else 0%nat)
  /\ forallb positiveSlot (merged ++ free) = true.
Proof.
  intros Hs He Hv merged free. subst merged free.
  rewrite (mergedOccupied_spec _ _ Hs He _ Hv).
  rewrite (findFreeSlots_spec _ _ Hs He _ Hv).
  rewrite <- map_app.
  pose proof (mergedZ_chain operatingStart operatingEnd occupiedSlots) as Hc.
  pose proof (mergedZ_inDay _ _ Hs He occupiedSlots) as Hm.
  pose proof (freeZ_inDay _ _ Hs He occupiedSlots) as Hf.
  pose proof (freeZ_chain operatingStart operatingEnd occupiedSlots) as Hfc.
  assert (Hall : Forall inDay (mergedZ occupiedSlots operatingStart operatingEnd
                               ++ freeZ occupiedSlots operatingStart operatingEnd))
    by (apply Forall_app; auto).
  split.
  - intros t. rewrite countAt_toSlot by exact Hall.
    unfold freeZ. now apply tiling_Z.
  - apply forallb_forall. intros x Hx. apply in_map_iff in Hx as (i & <- & Hi).
    rewrite Forall_forall in Hall.
    rewrite positiveSlot_toSlot by (apply Hall; exact Hi).
    apply Z.ltb_lt. apply chain_bounds in Hc, Hfc.
    rewrite Forall_forall in Hc, Hfc.
    apply in_app_or in Hi as [Hi|Hi]; [apply Hc in Hi|apply Hfc in Hi]; lia.
Qed.

Lemma tiling_invariant_witness :
  let merged := mergedOccupied
                  [mkTimeSlot "14:30" "15:30"; mkTimeSlot "09:00" "09:30"]
                  "09:00" "19:30" in
  let free := findFreeSlots
                [mkTimeSlot "14:30" "15:30"; mkTimeSlot "09:00" "09:30"]
                "09:00" "19:30" in
  (forall t : Z,
      countAt t (merged ++ free)
      = if (minutesOf "09:00" <=? t) && (t <? minutesOf "19:30")
        then 1%nat else 0%nat)
  /\ forallb positiveSlot (merged ++ free) = true.
Proof.
  apply (tiling_invariant
           [mkTimeSlot "14:30" "15:30"; mkTimeSlot "09:00" "09:30"]
           "09:00" "19:30"); reflexivity.
Defined.

(** C4, the interval merger.  For well-formed clock times the merged list is
    made of well-formed slots which, read in minutes, lie inside the
    operating window with a positive length (clipped, degenerate ones
    dropped), are in ascending order of start with each slot starting
    strictly after the previous one ends (so overlapping and touching slots
    were merged), and cover exactly the minutes of the clipped input slots;
    and [10:00,11:00], [10:30,12:00] merge to [10:00,12:00]. *)
Theorem merged_sorted_disjoint_clipped (occupiedSlots : list TimeSlot)
    (operatingStart operatingEnd : string) :
  isClockTime operatingStart = true ->
  isClockTime operatingEnd = true ->
  validSlots occupiedSlots = true ->
  let ws := minutesOf operatingStart in
  let we := minutesOf operatingEnd in
  let merged := mergedOccupied occupiedSlots operatingStart operatingEnd in
  validSlots merged = true
  /\ Forall (fun i => ws <= fst i /\ fst i < snd i /\ snd i <= we)
       (map toInterval merged)
  /\ StronglySorted (fun i j => fst i < fst j /\ snd i < fst j)
       (map toInterval merged)
  /\ (forall t : Z,
        covered (map toInterval merged) t
        <-> covered (map (clip ws we) (map toInterval occupiedSlots)) t)
  /\ mergedOccupied [mkTimeSlot "10:00" "11:00"; mkTimeSlot "10:30" "12:00"]
       (start OPERATING_HOURS) (end_ OPERATING_HOURS)
     = [mkTimeSlot "10:00" "12:00"].
Proof.
  intros Hs He Hv ws we merged. subst merged.
  rewrite (mergedOccupied_spec _ _ Hs He _ Hv).
  pose proof (mergedZ_chain operatingStart operatingEnd occupiedSlots) as Hc.
  pose proof (mergedZ_inDay _ _ Hs He occupiedSlots) as Hm.
  rewrite (toInterval_toSlot _ Hm).
  split; [now apply validSlots_toSlot|].
  split; [now apply chain_bounds|].
  split; [now apply chain_separated in Hc|].
  split; [|reflexivity].
  intros t. now apply mergedZ_covered.
Qed.

Lemma merged_sorted_disjoint_clipped_witness :
  validSlots
    (mergedOccupied [mkTimeSlot "11:00" "12:00"; mkTimeSlot "08:00" "10:00";
                     mkTimeSlot "10:00" "11:00"; mkTimeSlot "15:00" "14:00"]
       "09:00" "19:30") = true.
Proof.
  apply (merged_sorted_disjoint_clipped
           [mkTimeSlot "11:00" "12:00"; mkTimeSlot "08:00" "10:00";
            mkTimeSlot "10:00" "11:00"; mkTimeSlot "15:00" "14:00"]
           "09:00" "19:30"); reflexivity.
Defined.

(** C8, idempotence of the merge.  For well-formed clock times, merging the
    output of the merger again, in the same window, returns it unchanged. *)
Theorem merge_idempotent (occupiedSlots : list TimeSlot)
    (operatingStart operatingEnd : string) :
  isClockTime operatingStart = true ->
  isClockTime operatingEnd = true ->
  validSlots occupiedSlots = true ->
  mergedOccupied
    (mergedOccupied occupiedSlots operatingStart operatingEnd)
    operatingStart operatingEnd
  = mergedOccupied occupiedSlots operatingStart operatingEnd.
Proof.
  intros Hs He Hv.
  rewrite (mergedOccupied_spec _ _ Hs He _ Hv).
  pose proof (mergedZ_chain operatingStart operatingEnd occupiedSlots) as Hc.
  pose proof (mergedZ_inDay _ _ Hs He occupiedSlots) as Hm.
  pose proof (validSlots_toSlot _ Hm) as Hv'.
  rewrite (mergedOccupied_spec _ _ Hs He _ Hv'). f_equal.
  eapply chain_unique; [apply mergedZ_chain|exact Hc|].
  intros t. rewrite (mergedZ_covered _ _ _ t Hv').
  rewrite (toInterval_toSlot _ Hm).
  rewrite (clip_inside _ _ _ _ (Z.le_refl _) Hc). reflexivity.
Qed.

Lemma merge_idempotent_witness :
  mergedOccupied
    (mergedOccupied [mkTimeSlot "10:30" "12:00"; mkTimeSlot "10:00" "11:00";
                     mkTimeSlot "18:00" "21:00"] "09:00" "19:30")
    "09:00" "19:30"
  = mergedOccupied [mkTimeSlot "10:30" "12:00"; mkTimeSlot "10:00" "11:00";
                    mkTimeSlot "18:00" "21:00"] "09:00" "19:30".
Proof.
  apply (merge_idempotent
           [mkTimeSlot "10:30" "12:00"; mkTimeSlot "10:00" "11:00";
            mkTimeSlot "18:00" "21:00"] "09:00" "19:30"); reflexivity.
Defined.

(** C9, order invariance of the merge.  For well-formed clock times, a
    permutation of the occupied slots merges to the identical list. *)
Theorem merge_order_invariant (occupiedSlots permuted : list TimeSlot)
    (operatingStart operatingEnd : string) :
  isClockTime operatingStart = true ->
  isClockTime operatingEnd = true ->
  validSlots occupiedSlots = true ->
  Permutation occupiedSlots permuted ->
  mergedOccupied permuted operatingStart operatingEnd
  = mergedOccupied occupiedSlots operatingStart operatingEnd.
Proof.
  intros Hs He Hv Hp.
  pose proof (validSlots_perm _ _ Hp Hv) as Hv'.
  rewrite (mergedOccupied_spec _ _ Hs He _ Hv).
  rewrite (mergedOccupied_spec _ _ Hs He _ Hv'). f_equal.
  eapply chain_unique; [apply mergedZ_chain|apply mergedZ_chain|].
  intros t. rewrite !mergedZ_covered by assumption.
  apply covered_perm. do 2 apply Permutation_map. now symmetry.
Qed.

Lemma merge_order_invariant_witness :
  mergedOccupied [mkTimeSlot "10:00" "12:00"; mkTimeSlot "10:00" "11:00";
                  mkTimeSlot "08:00" "09:30"] "09:00" "19:30"
  = mergedOccupied [mkTimeSlot "10:00" "11:00"; mkTimeSlot "08:00" "09:30";
                    mkTimeSlot "10:00" "12:00"] "09:00" "19:30".
Proof.
  apply (merge_order_invariant
           [mkTimeSlot "10:00" "11:00"; mkTimeSlot "08:00" "09:30";
            mkTimeSlot "10:00" "12:00"]
           [mkTimeSlot "10:00" "12:00"; mkTimeSlot "10:00" "11:00";
            mkTimeSlot "08:00" "09:30"]
           "09:00" "19:30"); try reflexivity.
  apply Permutation_sym, (Permutation_cons_app [_; _] []). reflexivity.
Defined.

(** C7, duration correctness.  For well-formed schedules, every record
    returned by [findFreeRooms] has a duration equal to the minutes of
    [freeTill] minus the minutes of [freeFrom], and it is positive. *)
Theorem duration_correct (schedules : list RoomSchedule) (dy : string)
    (targetTime : option string) (minDuration : option number)
    (res : FreeRoom) :
  validSchedules schedules = true ->
  In res (findFreeRooms schedules dy targetTime minDuration) ->
  exists from till : Z,
    timeToMinutes (freeFrom res) = Num from
    /\ timeToMinutes (freeTill res) = Num till
    /\ duration res = Num (till - from)
    /\ 0 < till - from.
Proof.
  intros Hv H. apply findFreeRooms_in in H as (rm & i & _ & Hi & H); [|auto].
  apply freeZ_interval in Hi as [Hd Hp].
  rewrite (slotResults_toSlot _ _ _ _ _ Hd) in H.
  destruct (toSlot_facts i Hd) as (H1 & H2 & _).
  exists (fst i), (snd i).
  destruct (givenNumber minDuration && _); [destruct H|].
  destruct (givenString targetTime && _); [destruct H|].
  destruct H as [<-|[]]. simpl. repeat split; auto. lia.
Qed.

Lemma duration_correct_witness :
  exists from till : Z,
    timeToMinutes "09:30" = Num from
    /\ timeToMinutes "14:30" = Num till
    /\ Num 300 = Num (till - from)
    /\ 0 < till - from.
Proof.
  apply (duration_correct
           [mkRoomSchedule "402" "Tue"
              [mkTimeSlot "09:00" "09:30"; mkTimeSlot "14:30" "15:30"]]
           "Tue" None None
           (mkFreeRoom "402" "Tue" "09:30" "14:30" (Num 300)));
    [reflexivity|].
  vm_compute. auto.
Defined.

(** C5, filter correctness.  For well-formed schedules: with a well-formed
    target time, every returned record's interval contains it, start
    included and end excluded; with a minimum duration, no returned record
    is shorter. *)
Theorem filter_correct (schedules : list RoomSchedule) (dy : string) :
  validSchedules schedules = true ->
  (forall (T : string) (minDuration : option number) (res : FreeRoom),
      isClockTime T = true ->
      In res (findFreeRooms schedules dy (Some T) minDuration) ->
      exists from till t : Z,
        timeToMinutes (freeFrom res) = Num from
        /\ timeToMinutes (freeTill res) = Num till
        /\ timeToMinutes T = Num t
        /\ from <= t < till)
  /\ (forall (targetTime : option string) (minDurationMinutes : Z)
             (res : FreeRoom),
        In res (findFreeRooms schedules dy targetTime
                  (Some (Num minDurationMinutes))) ->
        exists d : Z, duration res = Num d /\ minDurationMinutes <= d).
Proof.
  intros Hv. split.
  - intros T md res HT H.
    apply findFreeRooms_in in H as (rm & i & _ & Hi & H); [|auto].
    apply freeZ_interval in Hi as [Hd Hp].
    rewrite (slotResults_toSlot _ _ _ _ _ Hd) in H.
    destruct (toSlot_facts i Hd) as (H1 & H2 & _).
    destruct (minutesOf_spec T HT) as (Ht & _ & _).
    assert (Hg : givenString (Some T) = true)
      by (destruct T; [discriminate|reflexivity]).
    rewrite Hg in H. cbn [stringOf andb] in H. rewrite Ht in H.
    cbn [JS.lt JS.ge JS.cmp2] in H.
    exists (fst i), (snd i), (minutesOf T).
    destruct (givenNumber md && _); [destruct H|].
    destruct (minutesOf T <? fst i) eqn:E1; [destruct H|].
    destruct (minutesOf T >=? snd i) eqn:E2; [destruct H|].
    destruct H as [<-|[]]. simpl.
    apply Z.ltb_ge in E1. rewrite Z.geb_leb in E2. apply Z.leb_gt in E2.
    repeat split; auto.
  - intros tt n res H.
    apply findFreeRooms_in in H as (rm & i & _ & Hi & H); [|auto].
    apply freeZ_interval in Hi as [Hd Hp].
    rewrite (slotResults_toSlot _ _ _ _ _ Hd) in H.
    exists (snd i - fst i).
    cbn [givenNumber numberOf JS.truthy JS.lt JS.cmp2] in H.
    destruct (n =? 0) eqn:E0; cbn [negb andb] in H.
    + apply Z.eqb_eq in E0.
      destruct (givenString tt && _); [destruct H|].
      destruct H as [<-|[]]. simpl. split; [reflexivity|lia].
    + destruct (snd i - fst i <? n) eqn:E1; [destruct H|].
      apply Z.ltb_ge in E1.
      destruct (givenString tt && _); [destruct H|].
      destruct H as [<-|[]]. simpl. split; [reflexivity|lia].
Qed.

Lemma filter_correct_witness :
  exists from till t : Z,
    timeToMinutes "09:30" = Num from
    /\ timeToMinutes "14:30" = Num till
    /\ timeToMinutes "10:00" = Num t
    /\ from <= t < till.
Proof.
  refine (proj1 (filter_correct
            [mkRoomSchedule "402" "Tue"
               [mkTimeSlot "09:00" "09:30"; mkTimeSlot "14:30" "15:30"]]
            "Tue" _) "10:00" None
            (mkFreeRoom "402" "Tue" "09:30" "14:30" (Num 300)) _ _).
  - reflexivity.
  - reflexivity.
  - vm_compute. auto.
Defined.

(** C10, at most one record per room for a target time.  For well-formed
    schedules and a well-formed target time, [findFreeRooms] returns at
    most one record for each room. *)
Theorem one_result_per_room (schedules : list RoomSchedule) (dy T : string)
    (minDuration : option number) (rm : string) :
  validSchedules schedules = true ->
  isClockTime T = true ->
  (List.length
     (resultsOfRoom rm (findFreeRooms schedules dy (Some T) minDuration))
   <= 1)%nat.
Proof.
  intros Hv HT. unfold resultsOfRoom.
  rewrite (filter_length_perm _ _ _ (findFreeRooms_perm _ _ _ _)).
  destruct (mergeRoomSchedules_spec schedules) as (HK & HR & HO).
  apply results_per_room; [exact HT|exact HK|].
  intros k dm Hin. apply (In_get _ _ _ HK) in Hin.
  rewrite (HO _ _ dy Hin). now apply validSlots_occupancyOf.
Qed.

Lemma one_result_per_room_witness :
  (List.length
     (resultsOfRoom "402"
        (findFreeRooms
           [mkRoomSchedule "402" "Tue"
              [mkTimeSlot "09:00" "09:30"; mkTimeSlot "14:30" "15:30"];
            mkRoomSchedule "501" "Tue" [];
            mkRoomSchedule "402" "Tue" [mkTimeSlot "11:00" "12:00"]]
           "Tue" (Some "10:00") None))
   <= 1)%nat.
Proof.
  apply (one_result_per_room
           [mkRoomSchedule "402" "Tue"
              [mkTimeSlot "09:00" "09:30"; mkTimeSlot "14:30" "15:30"];
            mkRoomSchedule "501" "Tue" [];
            mkRoomSchedule "402" "Tue" [mkTimeSlot "11:00" "12:00"]]
           "Tue" "10:00" None "402"); reflexivity.
Defined.

(** C6, sort correctness.  For well-formed schedules whose rooms are
    numeric identifiers, the list returned by [findFreeRooms] is ordered:
    of two records the earlier has the longer duration or, for equal
    durations, the room number that is not larger as an integer; so "402"
    comes before "501" and both before "4010". *)
Theorem sort_correct (schedules : list RoomSchedule) (dy : string)
    (targetTime : option string) (minDuration : option number) :
  validSchedules schedules = true ->
  numericRooms schedules = true ->
  StronglySorted resultOrder
    (findFreeRooms schedules dy targetTime minDuration)
  /\ map fr_room
       (findFreeRooms
          [mkRoomSchedule "4010" "Mon" []; mkRoomSchedule "501" "Mon" [];
           mkRoomSchedule "402" "Mon" []] "Mon" None None)
     = ["402"; "501"; "4010"].
Proof.
  intros Hv Hr. split; [|reflexivity].
  apply Sorted_StronglySorted; [exact resultOrder_trans|].
  unfold findFreeRooms.
  apply sort_sorted
    with (P := fun res => exists d r, duration res = Num d
                                      /\ JS.parseInt (fr_room res) = Num r).
  - intros x y (dx & rx & Hx & Rx) (dy' & ry & Hy & Ry) Hp.
    pose proof (byDurationThenRoom_order x y _ _ _ _ Hx Hy Rx Ry) as H.
    now rewrite Hp in H.
  - intros x y (dx & rx & Hx & Rx) (dy' & ry & Hy & Ry) Hp.
    pose proof (byDurationThenRoom_order x y _ _ _ _ Hx Hy Rx Ry) as H.
    now rewrite Hp in H.
  - apply Forall_forall. intros res H.
    apply (Permutation_in _
             (Permutation_sym
                (findFreeRooms_perm schedules dy targetTime minDuration)))
      in H.
    apply findFreeRooms_in in H as (rm & i & Hrm & Hi & H); [|auto].
    apply freeZ_interval in Hi as [Hd Hp].
    rewrite (slotResults_toSlot _ _ _ _ _ Hd) in H.
    apply in_map_iff in Hrm as (sch & <- & Hs).
    unfold numericRooms in Hr. rewrite forallb_forall in Hr.
    destruct (parseInt_roomId _ (Hr sch Hs)) as (r & Hpi).
    destruct (givenNumber minDuration && _); [destruct H|].
    destruct (givenString targetTime && _); [destruct H|].
    destruct H as [<-|[]]. simpl. eauto.
Qed.

Lemma sort_correct_witness :
  StronglySorted resultOrder
    (findFreeRooms
       [mkRoomSchedule "501" "Tue" [mkTimeSlot "09:00" "11:30"];
        mkRoomSchedule "4010" "Tue" [];
        mkRoomSchedule "402" "Tue"
          [mkTimeSlot "09:00" "09:30"; mkTimeSlot "14:30" "15:30"];
        mkRoomSchedule "401" "Tue" []]
       "Tue" None None).
Proof.
  apply (sort_correct
           [mkRoomSchedule "501" "Tue" [mkTimeSlot "09:00" "11:30"];
            mkRoomSchedule "4010" "Tue" [];
            mkRoomSchedule "402" "Tue"
              [mkTimeSlot "09:00" "09:30"; mkTimeSlot "14:30" "15:30"];
            mkRoomSchedule "401" "Tue" []]
           "Tue" None None); reflexivity.
Defined.

Lemma isForeign_not_numeric (c : ascii) :
  isForeign c
  && (JS.isDigit c || Ascii.eqb c "-" || Ascii.eqb c "+") = false.
Proof.
  destruct c as [[|] [|] [|] [|] [|] [|] [|] [|]]; reflexivity.
Qed.

Lemma isForeign_facts (c : ascii) :
  isForeign c = true ->
  JS.isDigit c = false /\ Ascii.eqb c "-" = false /\ Ascii.eqb c "+" = false.
Proof.
  intros H. pose proof (isForeign_not_numeric c) as N. rewrite H in N.
  simpl in N. apply orb_false_iff in N as [N N3].
  apply orb_false_iff in N as [N1 N2]. auto.
Qed.

Lemma digitsValue_foreign (s : string) :
  hasForeign s = true -> forall acc, JS.digitsValue acc s = None.
Proof.
  induction s as [|c s IH]; simpl; [discriminate|]. intros H acc.
  destruct (JS.isDigit c) eqn:D; [|reflexivity].
  destruct (isForeign c) eqn:F.
  - apply isForeign_facts in F as (F & _). congruence.
  - apply IH. exact H.
Qed.

Lemma unsignedValue_foreign (s : string) :
  hasForeign s = true -> JS.unsignedValue s = None.
Proof.
  intros H. destruct s as [|c s]; [discriminate|].
  unfold JS.unsignedValue. now apply digitsValue_foreign.
Qed.

(** A part with a character foreign to numbers is not a number. *)
Lemma Number_foreign (s : string) :
  hasForeign s = true -> JS.Number s = NaN.
Proof.
  intros H. destruct s as [|c s]; [discriminate|]. unfold JS.Number.
  destruct (isForeign c) eqn:F.
  - apply isForeign_facts in F as (_ & F1 & F2). rewrite F1, F2.
    now rewrite (unsignedValue_foreign _ H).
  - simpl in H. rewrite F in H. simpl in H.
    destruct (Ascii.eqb c "-"); [now rewrite (unsignedValue_foreign _ H)|].
    destruct (Ascii.eqb c "+"); [now rewrite (unsignedValue_foreign _ H)|].
    rewrite unsignedValue_foreign; [reflexivity|].
    simpl. rewrite F. exact H.
Qed.

(** C3 as the code has it.  [timeToMinutes] validates nothing and never
    fails: a string without a colon gives [NaN]; an hour or minute part
    holding a character that no number can contain (such as a letter g or
    an underscore) gives [NaN]; and digit parts (of at most 14 digits,
    where the arithmetic is exact) give hours * 60 + minutes whatever their
    range, with no error and no clamping, as for 25:99. *)
Theorem timeToMinutes_unvalidated :
  (forall s : string, hasChar ":" s = false -> timeToMinutes s = NaN)
  /\ (forall h m : string,
        hasChar ":" h = false -> hasChar ":" m = false ->
        hasForeign h = true \/ hasForeign m = true ->
        timeToMinutes (h ++ ":" ++ m) = NaN)
  /\ (forall (h m : string) (hours minutes : Z),
        JS.unsignedValue h = Some hours ->
        JS.unsignedValue m = Some minutes ->
        (String.length h <= 14)%nat -> (String.length m <= 14)%nat ->
        timeToMinutes (h ++ ":" ++ m) = Num (hours * 60 + minutes))
  /\ timeToMinutes "ab:cd" = NaN
  /\ timeToMinutes "25:99" = Num 1599.
Proof.
  split; [|split; [|split; [|split; reflexivity]]].
  - intros s H. unfold timeToMinutes. rewrite (split_no_sep _ _ H). simpl.
    now destruct (JS.Number s).
  - intros h m Hh Hm H. unfold timeToMinutes. cbn [append].
    rewrite (split_at_sep _ _ _ Hh), (split_no_sep _ _ Hm). simpl.
    destruct H as [H|H]; rewrite (Number_foreign _ H); [reflexivity|].
    now destruct (JS.Number h).
  - intros h m hours minutes Hh Hm _ _. unfold timeToMinutes. cbn [append].
    rewrite (split_at_sep _ _ _ (unsignedValue_no_colon _ _ Hh)).
    rewrite (split_no_sep _ _ (unsignedValue_no_colon _ _ Hm)). simpl.
    now rewrite (Number_digits _ _ Hh), (Number_digits _ _ Hm).
Qed.

Lemma timeToMinutes_unvalidated_witness :
  timeToMinutes ("24" ++ ":" ++ "60") = Num (24 * 60 + 60)
  /\ timeToMinutes ("9_" ++ ":" ++ "00") = NaN.
Proof.
  split.
  - apply (proj1 (proj2 (proj2 timeToMinutes_unvalidated)) "24" "60" 24 60);
      [reflexivity|reflexivity|simpl; lia|simpl; lia].
  - apply (proj1 (proj2 timeToMinutes_unvalidated) "9_" "00");
      [reflexivity|reflexivity|left; reflexivity].
Defined.

(** C3 as stated fails: 25:99 is not a clock time, and [timeToMinutes]
    returns the number 1599 for it. *)
Lemma malformed_time_returns_a_value :
  isClockTime "25:99" = false /\ timeToMinutes "25:99" = Num 1599.
Proof. split; reflexivity. Qed.

(** C2 as the code has it.  [findFreeRooms] computes free slots for the
    rooms that occur in the list it is given, and for no roster;
    [getCompleteSchedules] keeps the rooms of the data (room and day without
    a dash) and adds an empty record for every roster room and day that the
    data lacks, so that a roster room with no record for the queried day is
    returned as free for the whole operating window. *)
Theorem rooms_come_from_the_schedules :
  (forall (schedules : list RoomSchedule) (dy : string)
          (targetTime : option string) (minDuration : option number)
          (res : FreeRoom),
      In res (findFreeRooms schedules dy targetTime minDuration)
      <-> exists rm slot,
            In rm (map room schedules)
            /\ In slot (findFreeSlots (occupancyOf schedules rm dy)
                          (start OPERATING_HOURS) (end_ OPERATING_HOURS))
            /\ In res (slotResults rm dy targetTime minDuration slot))
  /\ (forall (schedules : list RoomSchedule) (sch : RoomSchedule),
        In sch schedules ->
        hasChar "-" (room sch) = false -> hasChar "-" (day sch) = false ->
        In (room sch) (map room (getCompleteSchedules schedules)))
  /\ (forall (schedules : list RoomSchedule) (rm dy : string),
        In rm ALL_ROOMS -> In dy DAYS ->
        (forall sch, In sch schedules -> room sch = rm -> day sch <> dy) ->
        In (mkFreeRoom rm dy "09:00" "19:30" (Num 630))
          (findFreeRooms (getCompleteSchedules schedules) dy None None)).
Proof.
  split; [exact findFreeRooms_in_slots|]. split.
  - intros schedules sch Hin Hr Hd. rewrite getCompleteSchedules_eq.
    destruct (completed_map rosterPairs schedules) as (HK & _ & HH).
    apply (keyed_room _ _ (day sch) HK Hr Hd).
    apply HH. right.
    apply (in_map (fun x => scheduleKey (room x) (day x))) in Hin. exact Hin.
  - intros schedules rm dy Hrm Hdy Hno.
    assert (Hcr : hasChar "-" rm = false).
    { simpl in Hrm. repeat destruct Hrm as [<-|Hrm]; try reflexivity.
      destruct Hrm. }
    assert (Hcd : hasChar "-" dy = false).
    { simpl in Hdy. repeat destruct Hdy as [<-|Hdy]; try reflexivity.
      destruct Hdy. }
    assert (Hpair : In (rm, dy) rosterPairs).
    { unfold rosterPairs. apply in_flat_map. exists rm. split; [exact Hrm|].
      now apply in_map. }
    destruct (completed_map rosterPairs schedules) as (HK & HO & HH).
    assert (Hroom : In rm (map room (getCompleteSchedules schedules))).
    { rewrite getCompleteSchedules_eq.
      apply (keyed_room _ _ dy HK Hcr Hcd). apply HH. left.
      apply (in_map (fun p => scheduleKey (fst p) (snd p))) in Hpair.
      exact Hpair. }
    assert (Hocc : occupancyOf (getCompleteSchedules schedules) rm dy = []).
    { apply occupancyOf_empty. intros rec Hrec Hr Hd.
      rewrite getCompleteSchedules_eq in Hrec.
      apply in_map_iff in Hrec as ([k rec'] & Hs & Hrec). simpl in Hs.
      subst rec'.
      destruct (HO _ _ Hrec) as [(sch & Hsch & Er & Ed)|He]; [|exact He].
      exfalso. exact (Hno sch Hsch (eq_trans Er Hr) (eq_trans Ed Hd)). }
    apply findFreeRooms_in_slots.
    exists rm, (mkTimeSlot "09:00" "19:30"). split; [exact Hroom|].
    rewrite Hocc. split; left; reflexivity.
Qed.

Lemma rooms_come_from_the_schedules_witness :
  In (mkFreeRoom "401" "Mon" "09:00" "19:30" (Num 630))
    (findFreeRooms
       (getCompleteSchedules
          [mkRoomSchedule "401" "Tue" [mkTimeSlot "10:00" "11:00"]])
       "Mon" None None).
Proof.
  apply (proj2 (proj2 rooms_come_from_the_schedules)
           [mkRoomSchedule "401" "Tue" [mkTimeSlot "10:00" "11:00"]]
           "401" "Mon").
  - simpl. auto.
  - simpl. auto.
  - intros sch [<-|[]] _. discriminate.
Defined.

(** C2 as stated fails: room 999 is not in the roster, yet it is in the
    result for data that name it, also after roster completion. *)
Lemma room_999_is_not_ignored :
  ~ In "999" ALL_ROOMS
  /\ In "999"
       (map fr_room
          (findFreeRooms
             (getCompleteSchedules
                [mkRoomSchedule "999" "Mon" [mkTimeSlot "09:00" "10:00"]])
             "Mon" None None)).
Proof.
  split.
  - intros H. simpl in H.
    repeat destruct H as [H|H]; try discriminate. exact H.
  - vm_compute. tauto.
Qed.

(** * Further properties of the code *)

(** X1, the two conversions are inverse on the minutes of a day.  A minute
    below 1440 prints as a well-formed clock time that converts back to it,
    and a well-formed clock time converts to a minute below 1440 that
    prints as the same string. *)
Theorem clock_round_trip :
  (forall m : Z, 0 <= m < 1440 ->
     isClockTime (minutesToTime (Num m)) = true
     /\ timeToMinutes (minutesToTime (Num m)) = Num m)
  /\ (forall s : string, isClockTime s = true ->
        exists m : Z, 0 <= m < 1440 /\ timeToMinutes s = Num m
                      /\ minutesToTime (timeToMinutes s) = s).
Proof.
  split.
  - intros m Hm. destruct (clock_print m Hm). auto.
  - intros s Hs. destruct (clock_parse s Hs) as (m & Hm & Hp & Hq).
    exists m. rewrite Hp. auto.
Qed.

Lemma clock_round_trip_witness :
  (isClockTime (minutesToTime (Num 570)) = true
   /\ timeToMinutes (minutesToTime (Num 570)) = Num 570)
  /\ exists m : Z, 0 <= m < 1440 /\ timeToMinutes "19:30" = Num m
                    /\ minutesToTime (timeToMinutes "19:30") = "19:30".
Proof.
  split.
  - apply (proj1 clock_round_trip 570). lia.
  - apply (proj2 clock_round_trip "19:30"). reflexivity.
Defined.

(** X2, the aggregation groups by room and day.  [mergeRoomSchedules] has
    exactly one entry for each room that occurs in the records, none for
    any other room, and reading a day of a room gives the occupied slots of
    all the records of that room and day, in the order of the records (the
    empty list for a day without record). *)
Theorem mergeRoomSchedules_groups (schedules : list RoomSchedule) :
  NoDup (map fst (mergeRoomSchedules schedules))
  /\ (forall rm,
        In rm (map fst (mergeRoomSchedules schedules))
        <-> In rm (map room schedules))
  /\ (forall rm,
        ~ In rm (map room schedules) ->
        JS.get rm (mergeRoomSchedules schedules) = None)
  /\ (forall rm dayMap dy,
        JS.get rm (mergeRoomSchedules schedules) = Some dayMap ->
        slotsOn dy dayMap = occupancyOf schedules rm dy).
Proof.
  destruct (mergeRoomSchedules_spec schedules) as (HK & HR & HO).
  split; [exact HK|]. split; [exact HR|]. split; [|exact HO].
  intros rm Hrm. apply get_None_keys. now rewrite HR.
Qed.

Lemma mergeRoomSchedules_groups_witness :
  slotsOn "Mon"
    [("Mon", [mkTimeSlot "09:00" "10:00"; mkTimeSlot "12:00" "13:00"]);
     ("Tue", [mkTimeSlot "11:00" "12:00"])]
  = occupancyOf
      [mkRoomSchedule "401" "Mon" [mkTimeSlot "09:00" "10:00"];
       mkRoomSchedule "401" "Tue" [mkTimeSlot "11:00" "12:00"];
       mkRoomSchedule "401" "Mon" [mkTimeSlot "12:00" "13:00"]]
      "401" "Mon".
Proof.
  apply (proj2 (proj2 (proj2 (mergeRoomSchedules_groups
           [mkRoomSchedule "401" "Mon" [mkTimeSlot "09:00" "10:00"];
            mkRoomSchedule "401" "Tue" [mkTimeSlot "11:00" "12:00"];
            mkRoomSchedule "401" "Mon" [mkTimeSlot "12:00" "13:00"]])))
           "401").
  reflexivity.
Defined.

(** X3, the free slots are in order and never touch.  For well-formed
    clock times the slots [findFreeSlots] returns are well-formed, lie
    inside the operating window with a positive length, and are in
    ascending order with each one starting strictly after the previous one
    ends. *)
Theorem free_slots_ordered (occupiedSlots : list TimeSlot)
    (operatingStart operatingEnd : string) :
  isClockTime operatingStart = true ->
  isClockTime operatingEnd = true ->
  validSlots occupiedSlots = true ->
  let free := findFreeSlots occupiedSlots operatingStart operatingEnd in
  validSlots free = true
  /\ Forall (fun i => minutesOf operatingStart <= fst i /\ fst i < snd i
                      /\ snd i <= minutesOf operatingEnd)
       (map toInterval free)
  /\ StronglySorted (fun i j => fst i < fst j /\ snd i < fst j)
       (map toInterval free).
Proof.
  intros Hs He Hv free. subst free.
  rewrite (findFreeSlots_spec _ _ Hs He _ Hv).
  pose proof (freeZ_chain operatingStart operatingEnd occupiedSlots) as Hc.
  pose proof (freeZ_inDay _ _ Hs He occupiedSlots) as Hd.
  rewrite (toInterval_toSlot _ Hd).
  split; [now apply validSlots_toSlot|].
  split; [now apply chain_bounds|now apply chain_separated in Hc].
Qed.

Lemma free_slots_ordered_witness :
  validSlots
    (findFreeSlots [mkTimeSlot "14:30" "15:30"; mkTimeSlot "09:00" "09:30"]
       "09:00" "19:30") = true.
Proof.
  apply (free_slots_ordered
           [mkTimeSlot "14:30" "15:30"; mkTimeSlot "09:00" "09:30"]
           "09:00" "19:30"); reflexivity.
Defined.

(** ** Free time is the window minus the occupied time *)

Lemma existsb_inside_covered (t : Z) (l : list interval) :
  existsb (inside t) l = true <-> covered l t.
Proof.
  unfold covered. rewrite existsb_exists, Exists_exists.
  split; intros (i & Hi & H); exists i; split; auto; unfold inside in *.
  - apply andb_true_iff in H as [H1 H2].
    apply Z.leb_le in H1. apply Z.ltb_lt in H2. lia.
  - apply andb_true_iff. split; [apply Z.leb_le|apply Z.ltb_lt]; lia.
Qed.

Lemma countZ_positive (t : Z) (l : list interval) :
  (0 < countZ t l)%nat <-> covered l t.
Proof.
  rewrite <- existsb_inside_covered. unfold countZ.
  induction l as [|i l IH]; simpl; [split; [lia|discriminate]|].
  destruct (inside t i); simpl; [split; [reflexivity|lia]|exact IH].
Qed.

Lemma covered_clip (ws we t : Z) (l : list interval) :
  covered (map (clip ws we) l) t <-> ws <= t < we /\ covered l t.
Proof.
  induction l as [|[a b] l IH]; simpl.
  - rewrite !covered_nil. tauto.
  - rewrite !covered_cons, IH. unfold clip. simpl. intuition lia.
Qed.

Lemma contains_valid (t : Z) (x : TimeSlot) :
  validSlot x = true -> contains t x = inside t (toInterval x).
Proof.
  intros Hx. unfold contains, inside.
  now rewrite (toInterval_start x Hx), (toInterval_end x Hx).
Qed.

Lemma existsb_contains_valid (t : Z) (l : list TimeSlot) :
  validSlots l = true ->
  existsb (contains t) l = existsb (inside t) (map toInterval l).
Proof.
  induction l as [|x l IH]; simpl; intros H; [reflexivity|].
  apply andb_true_iff in H as [Hx Hl].
  now rewrite (contains_valid t x Hx), (IH Hl).
Qed.

Lemma existsb_contains_toSlot (t : Z) (l : list interval) :
  Forall inDay l -> existsb (contains t) (map toSlot l) = existsb (inside t) l.
Proof.
  induction 1 as [|i l Hi Hl IH]; [reflexivity|]. simpl.
  now rewrite (contains_toSlot t i Hi), IH.
Qed.

(** A minute is free exactly when it is in the window and no occupied slot
    holds it. *)
Lemma free_complement (l : list TimeSlot)
    (operatingStart operatingEnd : string) (t : Z) :
  validSlots l = true ->
  covered (freeZ l operatingStart operatingEnd) t
  <-> minutesOf operatingStart <= t < minutesOf operatingEnd
      /\ ~ covered (map toInterval l) t.
Proof.
  intros Hv.
  pose proof (tiling_Z _ _ _ t (mergedZ_chain operatingStart operatingEnd l))
    as Ht.
  fold (freeZ l operatingStart operatingEnd) in Ht. rewrite countZ_app in Ht.
  pose proof (mergedZ_covered operatingStart operatingEnd l t Hv) as Hm.
  cbv zeta in Hm. rewrite covered_clip in Hm.
  rewrite <- !countZ_positive in *.
  destruct (minutesOf operatingStart <=? t) eqn:E1;
    destruct (t <? minutesOf operatingEnd) eqn:E2; simpl in Ht;
    try apply Z.leb_le in E1; try apply Z.leb_gt in E1;
    try apply Z.ltb_lt in E2; try apply Z.ltb_ge in E2;
    intuition lia.
Qed.

Lemma free_complement_bool (l : list TimeSlot)
    (operatingStart operatingEnd : string) (t : Z) :
  isClockTime operatingStart = true ->
  isClockTime operatingEnd = true ->
  validSlots l = true ->
  existsb (contains t) (findFreeSlots l operatingStart operatingEnd)
  = (minutesOf operatingStart <=? t) && (t <? minutesOf operatingEnd)
    && negb (existsb (contains t) l).
Proof.
  intros Hs He Hv. rewrite (findFreeSlots_spec _ _ Hs He _ Hv).
  rewrite existsb_contains_toSlot by now apply freeZ_inDay.
  rewrite (existsb_contains_valid t l Hv).
  pose proof (free_complement l operatingStart operatingEnd t Hv) as H.
  rewrite <- !existsb_inside_covered in H.
  destruct (existsb (inside t) (freeZ l operatingStart operatingEnd));
    destruct (existsb (inside t) (map toInterval l));
    destruct (minutesOf operatingStart <=? t) eqn:E1;
    destruct (t <? minutesOf operatingEnd) eqn:E2; simpl; try reflexivity;
    try apply Z.leb_le in E1; try apply Z.leb_gt in E1;
    try apply Z.ltb_lt in E2; try apply Z.ltb_ge in E2;
    exfalso; intuition (try discriminate; try lia).
Qed.

Lemma existsb_same {A : Type} (f g : A -> bool) (l : list A) :
  (forall x, f x = g x) -> existsb f l = existsb g l.
Proof.
  intros H. induction l as [|x l IH]; simpl; [reflexivity|].
  now rewrite H, IH.
Qed.

Lemma timeInSlot_contains (T : string) (slot : TimeSlot) :
  isClockTime T = true -> timeInSlot T slot = contains (minutesOf T) slot.
Proof.
  intros HT. destruct (minutesOf_spec T HT) as (Ht & _ & _).
  unfold timeInSlot, contains. rewrite Ht.
  destruct (timeToMinutes (start slot)); simpl; [|reflexivity].
  now rewrite Z.geb_leb.
Qed.

(** X4, free time is exactly the unoccupied time of the window.  For
    well-formed clock times and any minute [t], some slot returned by
    [findFreeSlots] contains [t] exactly when [t] is in the operating
    window and no occupied slot of the input contains it. *)
Theorem free_exactly_when_not_occupied (occupiedSlots : list TimeSlot)
    (operatingStart operatingEnd : string) (t : Z) :
  isClockTime operatingStart = true ->
  isClockTime operatingEnd = true ->
  validSlots occupiedSlots = true ->
  existsb (contains t)
    (findFreeSlots occupiedSlots operatingStart operatingEnd)
  = (minutesOf operatingStart <=? t) && (t <? minutesOf operatingEnd)
    && negb (existsb (contains t) occupiedSlots).
Proof. intros Hs He Hv. now apply free_complement_bool. Qed.

Lemma free_exactly_when_not_occupied_witness :
  existsb (contains 600)
    (findFreeSlots [mkTimeSlot "14:30" "15:30"; mkTimeSlot "09:00" "09:30"]
       "09:00" "19:30")
  = (minutesOf "09:00" <=? 600) && (600 <? minutesOf "19:30")
    && negb (existsb (contains 600)
               [mkTimeSlot "14:30" "15:30"; mkTimeSlot "09:00" "09:30"]).
Proof.
  apply (free_exactly_when_not_occupied
           [mkTimeSlot "14:30" "15:30"; mkTimeSlot "09:00" "09:30"]
           "09:00" "19:30" 600); reflexivity.
Defined.

(** X5, the grid and the finder agree.  For well-formed clock times, the
    test script's [isRoomFreeAt] on the free slots of [findFreeSlots] holds
    at a time exactly when that time is in the operating window and the
    schedule grid's [isOccupied] does not hold for the occupied slots. *)
Theorem free_at_iff_not_occupied (occupiedSlots : list TimeSlot)
    (operatingStart operatingEnd time : string) :
  isClockTime operatingStart = true ->
  isClockTime operatingEnd = true ->
  validSlots occupiedSlots = true ->
  isClockTime time = true ->
  isRoomFreeAt (findFreeSlots occupiedSlots operatingStart operatingEnd) time
  = (minutesOf operatingStart <=? minutesOf time)
    && (minutesOf time <? minutesOf operatingEnd)
    && negb (isOccupied (Some occupiedSlots) time).
Proof.
  intros Hs He Hv HT. unfold isRoomFreeAt, isOccupied.
  rewrite (existsb_same _ (contains (minutesOf time))
             (findFreeSlots occupiedSlots operatingStart operatingEnd)
             (fun slot => timeInSlot_contains time slot HT)).
  rewrite (existsb_same _ (contains (minutesOf time)) occupiedSlots
             (fun slot => timeInSlot_contains time slot HT)).
  now apply free_complement_bool.
Qed.

Lemma free_at_iff_not_occupied_witness :
  isRoomFreeAt
    (findFreeSlots [mkTimeSlot "09:00" "11:30"] "09:00" "19:30") "10:00"
  = (minutesOf "09:00" <=? minutesOf "10:00")
    && (minutesOf "10:00" <? minutesOf "19:30")
    && negb (isOccupied (Some [mkTimeSlot "09:00" "11:30"]) "10:00").
Proof.
  apply (free_at_iff_not_occupied [mkTimeSlot "09:00" "11:30"]
           "09:00" "19:30" "10:00"); reflexivity.
Defined.

(** X6, [getOccupiedSlot] finds the first slot that [isOccupied] sees.  It
    returns nothing exactly when [isOccupied] is false (also when the
    slots are undefined); a slot it returns is in the list, contains the
    time, and no earlier slot of the list contains the time. *)
Theorem getOccupiedSlot_finds (slots : option (list TimeSlot))
    (time : string) :
  (getOccupiedSlot slots time = None <-> isOccupied slots time = false)
  /\ (forall slot, getOccupiedSlot slots time = Some slot ->
        exists before after,
          slots = Some (before ++ slot :: after)
          /\ timeInSlot time slot = true
          /\ forallb (fun x => negb (timeInSlot time x)) before = true).
Proof.
  destruct slots as [l|]; simpl; [|split; [tauto|discriminate]].
  split.
  - induction l as [|x l IH]; simpl; [tauto|].
    destruct (timeInSlot time x); simpl; [split; discriminate|exact IH].
  - induction l as [|x l IH]; simpl; [discriminate|]. intros slot.
    destruct (timeInSlot time x) eqn:E.
    + intros H. inversion H; subst. exists [], l. auto.
    + intros H. destruct (IH slot H) as (b & a & Hl & Hs & Hb).
      inversion Hl; subst. exists (x :: b), a. simpl. rewrite E. auto.
Qed.

Lemma getOccupiedSlot_finds_witness :
  exists before after,
    Some [mkTimeSlot "09:00" "10:00"; mkTimeSlot "10:00" "11:30"]
    = Some (before ++ mkTimeSlot "10:00" "11:30" :: after)
    /\ timeInSlot "10:30" (mkTimeSlot "10:00" "11:30") = true
    /\ forallb (fun x => negb (timeInSlot "10:30" x)) before = true.
Proof.
  apply (proj2 (getOccupiedSlot_finds
                  (Some [mkTimeSlot "09:00" "10:00";
                         mkTimeSlot "10:00" "11:30"]) "10:30")).
  reflexivity.
Defined.

(** X7, a room without occupied slot is free for the whole window.  For a
    well-formed window, [findFreeSlots] on the empty list returns the one
    slot from the start to the end of the window, as the two strings given,
    and nothing when the window is empty. *)
Theorem no_occupancy_whole_window (operatingStart operatingEnd : string) :
  isClockTime operatingStart = true ->
  isClockTime operatingEnd = true ->
  findFreeSlots [] operatingStart operatingEnd
  = if minutesOf operatingStart <? minutesOf operatingEnd
    then [mkTimeSlot operatingStart operatingEnd] else [].
Proof.
  intros Hs He. rewrite (findFreeSlots_spec _ _ Hs He [] eq_refl).
  unfold freeZ, mergedZ. simpl.
  destruct (minutesOf_spec _ Hs) as (_ & _ & Ps).
  destruct (minutesOf_spec _ He) as (_ & _ & Pe).
  destruct (minutesOf operatingStart <? minutesOf operatingEnd);
    [|reflexivity].
  simpl. unfold toSlot. simpl. now rewrite Ps, Pe.
Qed.

Lemma no_occupancy_whole_window_witness :
  findFreeSlots [] "09:00" "19:30"
  = if minutesOf "09:00" <? minutesOf "19:30"
    then [mkTimeSlot "09:00" "19:30"] else [].
Proof.
  apply (no_occupancy_whole_window "09:00" "19:30"); reflexivity.
Defined.

(** X8, no free slot when there is no free time.  For well-formed clock
    times, [findFreeSlots] returns the empty list when the window is empty
    (its end is not after its start) or when one occupied slot spans the
    whole window. *)
Theorem no_free_slot (occupiedSlots : list TimeSlot)
    (operatingStart operatingEnd : string) :
  isClockTime operatingStart = true ->
  isClockTime operatingEnd = true ->
  validSlots occupiedSlots = true ->
  minutesOf operatingEnd <= minutesOf operatingStart
  \/ (exists slot, In slot occupiedSlots
                   /\ minutesOf (start slot) <= minutesOf operatingStart
                   /\ minutesOf operatingEnd <= minutesOf (end_ slot)) ->
  findFreeSlots occupiedSlots operatingStart operatingEnd = [].
Proof.
  intros Hs He Hv H. rewrite (findFreeSlots_spec _ _ Hs He _ Hv).
  pose proof (freeZ_chain operatingStart operatingEnd occupiedSlots) as Hc.
  destruct (freeZ occupiedSlots operatingStart operatingEnd)
    as [|[a b] r] eqn:E; [reflexivity|].
  exfalso. simpl in Hc. destruct Hc as (H1 & H2 & H3 & _).
  destruct H as [H|(slot & Hin & Hlo & Hhi)]; [lia|].
  assert (Hc : covered (freeZ occupiedSlots operatingStart operatingEnd) a)
    by (rewrite E; apply covered_cons; simpl; lia).
  apply (free_complement _ _ _ _ Hv) in Hc as [_ Hn]. apply Hn.
  unfold covered. apply Exists_exists. exists (toInterval slot).
  split; [now apply in_map|]. unfold toInterval. simpl. lia.
Qed.

Lemma no_free_slot_witness :
  findFreeSlots [mkTimeSlot "12:00" "13:00"; mkTimeSlot "08:00" "20:00"]
    "09:00" "19:30" = [].
Proof.
  apply (no_free_slot
           [mkTimeSlot "12:00" "13:00"; mkTimeSlot "08:00" "20:00"]
           "09:00" "19:30"); try reflexivity.
  right. exists (mkTimeSlot "08:00" "20:00").
  split; [simpl; auto|]. split; vm_compute; discriminate.
Defined.

(** ** The filters of the query *)

Lemma slotResults_unfiltered (rm dy : string) (targetTime : option string)
    (minDuration : option number) (slot : TimeSlot) (res : FreeRoom) :
  In res (slotResults rm dy targetTime minDuration slot) ->
  In res (slotResults rm dy None None slot).
Proof.
  unfold slotResults.
  destruct (givenNumber minDuration && _); [intros []|].
  destruct (givenString targetTime && _); [intros []|].
  simpl. auto.
Qed.

Lemma findFreeRooms_same_filters (schedules : list RoomSchedule)
    (dy : string) (tt tt' : option string) (md md' : option number) :
  (forall rm slot, slotResults rm dy tt md slot
                   = slotResults rm dy tt' md' slot) ->
  findFreeRooms schedules dy tt md = findFreeRooms schedules dy tt' md'.
Proof.
  intros H. unfold findFreeRooms. f_equal.
  apply flat_map_ext. intros [rm dm]. unfold roomResults.
  apply flat_map_ext. intros slot. apply H.
Qed.

(** X9, the filters only remove records.  Whatever the target time and the
    minimum duration, every record [findFreeRooms] returns is among those
    it returns for the same data and day without any filter. *)
Theorem filters_only_remove (schedules : list RoomSchedule) (dy : string)
    (targetTime : option string) (minDuration : option number)
    (res : FreeRoom) :
  In res (findFreeRooms schedules dy targetTime minDuration) ->
  In res (findFreeRooms schedules dy None None).
Proof.
  intros H. apply findFreeRooms_in_slots in H as (rm & slot & Hr & Hs & H).
  apply findFreeRooms_in_slots. exists rm, slot.
  split; [exact Hr|]. split; [exact Hs|].
  now apply slotResults_unfiltered in H.
Qed.

Lemma filters_only_remove_witness :
  In (mkFreeRoom "402" "Tue" "09:30" "14:30" (Num 300))
    (findFreeRooms
       [mkRoomSchedule "402" "Tue"
          [mkTimeSlot "09:00" "09:30"; mkTimeSlot "14:30" "15:30"]]
       "Tue" None None).
Proof.
  apply (filters_only_remove
           [mkRoomSchedule "402" "Tue"
              [mkTimeSlot "09:00" "09:30"; mkTimeSlot "14:30" "15:30"]]
           "Tue" (Some "10:00") (Some (Num 250))).
  vm_compute. auto.
Defined.

(** X10, filter arguments that count as absent.  An empty target time, a
    minimum duration of 0 and a minimum duration [NaN] (what the route's
    [parseInt] gives for a parameter that is not a number) filter nothing:
    the result is that of the call without the argument. *)
Theorem falsy_filters_are_ignored (schedules : list RoomSchedule)
    (dy : string) (targetTime : option string)
    (minDuration : option number) :
  findFreeRooms schedules dy (Some "") minDuration
  = findFreeRooms schedules dy None minDuration
  /\ findFreeRooms schedules dy targetTime (Some (Num 0))
     = findFreeRooms schedules dy targetTime None
  /\ findFreeRooms schedules dy targetTime (Some NaN)
     = findFreeRooms schedules dy targetTime None.
Proof.
  split; [|split]; apply findFreeRooms_same_filters; intros rm slot;
    reflexivity.
Qed.

(** A record of the query comes from a free interval of the default
    window, and carries the queried day. *)
Lemma findFreeRooms_record (schedules : list RoomSchedule) (dy : string)
    (targetTime : option string) (minDuration : option number)
    (res : FreeRoom) :
  validSchedules schedules = true ->
  In res (findFreeRooms schedules dy targetTime minDuration) ->
  exists rm i,
    In rm (map room schedules)
    /\ minutesOf (start OPERATING_HOURS) <= fst i /\ fst i < snd i
    /\ snd i <= minutesOf (end_ OPERATING_HOURS)
    /\ timeToMinutes (freeFrom res) = Num (fst i)
    /\ timeToMinutes (freeTill res) = Num (snd i)
    /\ In res (slotResults rm dy targetTime minDuration (toSlot i))
    /\ res = mkFreeRoom rm dy (minutesToTime (Num (fst i)))
               (minutesToTime (Num (snd i))) (Num (snd i - fst i)).
Proof.
  intros Hv H. apply findFreeRooms_in in H as (rm & i & Hrm & Hi & H); [|auto].
  pose proof (freeZ_chain (start OPERATING_HOURS) (end_ OPERATING_HOURS)
                (occupancyOf schedules rm dy)) as Hc.
  apply chain_bounds in Hc. rewrite Forall_forall in Hc.
  specialize (Hc i Hi).
  apply freeZ_interval in Hi as [Hd Hp].
  destruct (toSlot_facts i Hd) as (H1 & H2 & _).
  exists rm, i. pose proof H as H'.
  rewrite (slotResults_toSlot _ _ _ _ _ Hd) in H.
  destruct (givenNumber minDuration && _); [destruct H|].
  destruct (givenString targetTime && _); [destruct H|].
  destruct H as [<-|[]]. simpl. destruct Hc as (C1 & C2 & C3).
  repeat split; auto.
Qed.

(** X11, results stay inside the operating hours.  For well-formed
    schedules every record of [findFreeRooms] carries the queried day, a
    room of the data, and a free interval that starts at 09:00 or later,
    ends at 19:30 or earlier, and so lasts at most 630 minutes. *)
Theorem results_within_operating_hours (schedules : list RoomSchedule)
    (dy : string) (targetTime : option string)
    (minDuration : option number) (res : FreeRoom) :
  validSchedules schedules = true ->
  In res (findFreeRooms schedules dy targetTime minDuration) ->
  fr_day res = dy
  /\ In (fr_room res) (map room schedules)
  /\ exists from till : Z,
       timeToMinutes (freeFrom res) = Num from
       /\ timeToMinutes (freeTill res) = Num till
       /\ duration res = Num (till - from)
       /\ 540 <= from /\ till <= 1170 /\ till - from <= 630.
Proof.
  intros Hv H.
  destruct (findFreeRooms_record _ _ _ _ _ Hv H)
    as (rm & i & Hrm & H1 & H2 & H3 & H4 & H5 & _ & ->).
  change (minutesOf (start OPERATING_HOURS)) with 540 in H1.
  change (minutesOf (end_ OPERATING_HOURS)) with 1170 in H3.
  simpl. split; [reflexivity|]. split; [exact Hrm|].
  exists (fst i), (snd i). simpl in H4, H5. repeat split; auto; lia.
Qed.

Lemma results_within_operating_hours_witness :
  fr_day (mkFreeRoom "402" "Tue" "15:30" "19:30" (Num 240)) = "Tue"
  /\ In (fr_room (mkFreeRoom "402" "Tue" "15:30" "19:30" (Num 240)))
       (map room
          [mkRoomSchedule "402" "Tue"
             [mkTimeSlot "08:00" "09:30"; mkTimeSlot "14:30" "15:30"]])
  /\ exists from till : Z,
       timeToMinutes "15:30" = Num from
       /\ timeToMinutes "19:30" = Num till
       /\ Num 240 = Num (till - from)
       /\ 540 <= from /\ till <= 1170 /\ till - from <= 630.
Proof.
  apply (results_within_operating_hours
           [mkRoomSchedule "402" "Tue"
              [mkTimeSlot "08:00" "09:30"; mkTimeSlot "14:30" "15:30"]]
           "Tue" None None
           (mkFreeRoom "402" "Tue" "15:30" "19:30" (Num 240)));
    [reflexivity|].
  vm_compute. auto.
Defined.

(** X12, [getFreeNow].  For well-formed schedules and a well-formed current
    time, every record of [getFreeNow] is for the current day and its free
    interval contains the current time, and there is at most one record
    per room; and of the seven weekday names the formatter gives, exactly
    Mon, Tue, Wed and Thu become a day name of the timetable (Thu as
    Thur). *)
Theorem getFreeNow_current (schedules : list RoomSchedule)
    (weekday currentTime : string) :
  validSchedules schedules = true ->
  isClockTime currentTime = true ->
  (forall res, In res (getFreeNow schedules weekday currentTime) ->
     fr_day res = getCurrentDay weekday
     /\ timeInSlot currentTime
          (mkTimeSlot (freeFrom res) (freeTill res)) = true)
  /\ (forall rm,
        (List.length
           (resultsOfRoom rm (getFreeNow schedules weekday currentTime))
         <= 1)%nat)
  /\ (In weekday ["Sun"; "Mon"; "Tue"; "Wed"; "Thu"; "Fri"; "Sat"] ->
      existsb (String.eqb (getCurrentDay weekday)) DAYS
      = existsb (String.eqb weekday) ["Mon"; "Tue"; "Wed"; "Thu"]).
Proof.
  intros Hv HT. unfold getFreeNow. split; [|split].
  - intros res H.
    destruct (findFreeRooms_record _ _ _ _ _ Hv H)
      as (rm & i & _ & H1 & H2 & H3 & H4 & H5 & Hs & ->).
    split; [reflexivity|].
    assert (Hd : inDay i).
    { change (minutesOf (start OPERATING_HOURS)) with 540 in H1.
      change (minutesOf (end_ OPERATING_HOURS)) with 1170 in H3.
      unfold inDay. lia. }
    rewrite (slotResults_toSlot _ _ _ _ _ Hd) in Hs.
    destruct (minutesOf_spec _ HT) as (Ht & _ & _).
    assert (Hg : givenString (Some currentTime) = true)
      by (destruct currentTime; [discriminate|reflexivity]).
    rewrite Hg in Hs. cbn [givenNumber andb stringOf] in Hs.
    rewrite Ht in Hs. cbn [JS.lt JS.ge JS.cmp2] in Hs.
    unfold timeInSlot. cbn [start end_ freeFrom freeTill] in *.
    rewrite Ht, H4, H5. cbn [JS.lt JS.ge JS.cmp2].
    destruct (minutesOf currentTime <? fst i) eqn:E1; [destruct Hs|].
    destruct (minutesOf currentTime >=? snd i) eqn:E2; [destruct Hs|].
    apply Z.ltb_ge in E1. rewrite Z.geb_leb in E2. apply Z.leb_gt in E2.
    apply andb_true_iff. split; [|now apply Z.ltb_lt].
    rewrite Z.geb_leb. now apply Z.leb_le.
  - intros rm. unfold resultsOfRoom.
    rewrite (filter_length_perm _ _ _ (findFreeRooms_perm _ _ _ _)).
    destruct (mergeRoomSchedules_spec schedules) as (HK & HR & HO).
    apply results_per_room; [exact HT|exact HK|].
    intros k dm Hin. apply (In_get _ _ _ HK) in Hin.
    rewrite (HO _ _ (getCurrentDay weekday) Hin).
    now apply validSlots_occupancyOf.
  - intros H. simpl in H.
    repeat destruct H as [<-|H]; try reflexivity. destruct H.
Qed.

Lemma getFreeNow_current_witness :
  (List.length
     (resultsOfRoom "402"
        (getFreeNow
           [mkRoomSchedule "402" "Thur"
              [mkTimeSlot "09:00" "09:30"; mkTimeSlot "14:30" "15:30"]]
           "Thu" "10:00"))
   <= 1)%nat.
Proof.
  apply (proj1 (proj2 (getFreeNow_current
           [mkRoomSchedule "402" "Thur"
              [mkTimeSlot "09:00" "09:30"; mkTimeSlot "14:30" "15:30"]]
           "Thu" "10:00" eq_refl eq_refl))).
Defined.

(** ** Roster completion keeps the data *)

Lemma append_cancel (a b c : string) :
  (a ++ b)%string = (a ++ c)%string -> b = c.
Proof.
  induction a as [|x a IH]; simpl; intros H; [exact H|].
  inversion H. auto.
Qed.

Lemma scheduleKey_inj (rm dy a b : string) :
  hasChar "-" rm = false -> hasChar "-" dy = false ->
  scheduleKey a b = scheduleKey rm dy -> a = rm /\ b = dy.
Proof.
  intros Hrm Hdy H. pose proof (scheduleKey_room _ _ _ _ Hrm Hdy H) as E.
  subst a. split; [reflexivity|]. unfold scheduleKey in H.
  apply append_cancel in H. simpl in H. now inversion H.
Qed.

Lemma scheduleKey_eqb (rm dy : string) (x : RoomSchedule) :
  hasChar "-" rm = false -> hasChar "-" dy = false ->
  String.eqb (scheduleKey (room x) (day x)) (scheduleKey rm dy)
  = String.eqb (room x) rm && String.eqb (day x) dy.
Proof.
  intros Hrm Hdy.
  destruct (String.eqb_spec (scheduleKey (room x) (day x))
              (scheduleKey rm dy)) as [E|E].
  - apply scheduleKey_inj in E as [-> ->]; auto.
    now rewrite !String.eqb_refl.
  - destruct (String.eqb_spec (room x) rm) as [Er|]; [|reflexivity].
    destruct (String.eqb_spec (day x) dy) as [Ed|]; [|reflexivity].
    exfalso. apply E. now rewrite Er, Ed.
Qed.

Lemma keyOccupancy_app (l l' : list RoomSchedule) (k : string) :
  keyOccupancy (l ++ l') k = keyOccupancy l k ++ keyOccupancy l' k.
Proof. unfold keyOccupancy. now rewrite filter_app, flat_map_app. Qed.

Lemma keyOccupancy_absent (l : list RoomSchedule) (k : string) :
  ~ In k (map (fun x => scheduleKey (room x) (day x)) l) ->
  keyOccupancy l k = [].
Proof.
  unfold keyOccupancy. induction l as [|x l IH]; simpl; [reflexivity|].
  intros H. destruct (String.eqb_spec (scheduleKey (room x) (day x)) k).
  - exfalso. apply H. now left.
  - apply IH. intros Hin. apply H. now right.
Qed.

Lemma keyOccupancy_occupancyOf (l : list RoomSchedule) (rm dy : string) :
  hasChar "-" rm = false -> hasChar "-" dy = false ->
  keyOccupancy l (scheduleKey rm dy) = occupancyOf l rm dy.
Proof.
  intros Hrm Hdy. unfold keyOccupancy, occupancyOf. f_equal.
  apply filter_ext. intros x. now apply scheduleKey_eqb.
Qed.

Lemma addExisting_get_same (m : list (string * RoomSchedule))
    (x : RoomSchedule) :
  exists rec,
    JS.get (scheduleKey (room x) (day x)) (addExisting m x) = Some rec
    /\ occupied rec
       = (match JS.get (scheduleKey (room x) (day x)) m with
          | Some e => occupied e
          | None => []
          end) ++ occupied x.
Proof.
  unfold addExisting.
  destruct (JS.get (scheduleKey (room x) (day x)) m) as [e|];
    eexists; (split; [apply get_set_same|reflexivity]).
Qed.

Lemma addExisting_get_other (m : list (string * RoomSchedule))
    (x : RoomSchedule) (k : string) :
  scheduleKey (room x) (day x) <> k ->
  JS.get k (addExisting m x) = JS.get k m.
Proof.
  intros H. unfold addExisting.
  destruct (JS.get (scheduleKey (room x) (day x)) m);
    now apply get_set_other.
Qed.

Lemma addExisting_nodup (m : list (string * RoomSchedule))
    (x : RoomSchedule) :
  NoDup (map fst m) -> NoDup (map fst (addExisting m x)).
Proof.
  intros H. unfold addExisting.
  destruct (JS.get (scheduleKey (room x) (day x)) m); now apply nodup_set.
Qed.

Lemma ensureKey_nodup (m : list (string * RoomSchedule))
    (p : string * string) :
  NoDup (map fst m) -> NoDup (map fst (ensureKey m p)).
Proof.
  intros H. unfold ensureKey. destruct p as [rm dy].
  destruct (negb _); [now apply nodup_set|exact H].
Qed.

(** After the first loop every record holds the slots filed under its
    key. *)
Lemma addExisting_occupancy (schedules : list RoomSchedule) :
  forall k rec,
    JS.get k (fold_left addExisting schedules []) = Some rec ->
    occupied rec = keyOccupancy schedules k.
Proof.
  induction schedules as [|x l IH] using rev_ind; [discriminate|].
  intros k rec. rewrite fold_left_app. cbn [fold_left].
  rewrite keyOccupancy_app.
  destruct (String.eqb_spec (scheduleKey (room x) (day x)) k) as [E|E].
  - subst k. intros Hg.
    destruct (addExisting_get_same (fold_left addExisting l []) x)
      as (rec' & Hg' & Ho).
    rewrite Hg in Hg'. inversion Hg'; subst rec'. rewrite Ho.
    unfold keyOccupancy at 2. cbn [filter]. rewrite String.eqb_refl.
    cbn [flat_map]. rewrite app_nil_r. f_equal.
    destruct (JS.get (scheduleKey (room x) (day x))
                (fold_left addExisting l [])) as [e|] eqn:G.
    + now apply IH.
    + symmetry. apply keyOccupancy_absent. intros Hin.
      assert (Hh : JS.has (scheduleKey (room x) (day x))
                     (fold_left addExisting l []) = true).
      { apply (fold_has addExisting
                 (fun y => scheduleKey (room y) (day y)) l
                 addExisting_has). now left. }
      unfold JS.has in Hh. rewrite G in Hh. discriminate.
  - rewrite addExisting_get_other by exact E. intros Hg.
    rewrite (IH _ _ Hg).
    rewrite (keyOccupancy_absent [x]); [now rewrite app_nil_r|].
    simpl. intros [H|[]]. contradiction.
Qed.

Lemma addExisting_absent (schedules : list RoomSchedule) (k : string) :
  JS.get k (fold_left addExisting schedules []) = None ->
  keyOccupancy schedules k = [].
Proof.
  intros Hg. apply keyOccupancy_absent. intros Hin.
  assert (Hh : JS.has k (fold_left addExisting schedules []) = true).
  { apply (fold_has addExisting (fun y => scheduleKey (room y) (day y))
             schedules addExisting_has). now left. }
  unfold JS.has in Hh. rewrite Hg in Hh. discriminate.
Qed.

(** The completed map: unique keys, and under each key the slots the data
    file there. *)
Lemma completed_occupancy (pairs : list (string * string))
    (schedules : list RoomSchedule) :
  let m := fold_left ensureKey pairs (fold_left addExisting schedules []) in
  NoDup (map fst m)
  /\ (forall k rec, JS.get k m = Some rec ->
                    occupied rec = keyOccupancy schedules k)
  /\ (forall k, JS.get k m = None -> keyOccupancy schedules k = []).
Proof.
  intros m. subst m. split.
  - apply fold_left_invariant; [intros; now apply ensureKey_nodup|].
    apply fold_left_invariant; [intros; now apply addExisting_nodup|].
    constructor.
  - apply (fold_left_invariant
             (fun m => (forall k rec, JS.get k m = Some rec ->
                          occupied rec = keyOccupancy schedules k)
                       /\ (forall k, JS.get k m = None ->
                             keyOccupancy schedules k = []))).
    + intros m [rm dy] _ [H1 H2]. unfold ensureKey, JS.has.
      destruct (JS.get (scheduleKey rm dy) m) as [e|] eqn:G; simpl;
        [split; assumption|].
      split.
      * intros k rec.
        destruct (String.eqb_spec (scheduleKey rm dy) k) as [E|E].
        -- subst k. rewrite get_set_same. intros Hs. inversion Hs. simpl.
           symmetry. now apply H2.
        -- rewrite get_set_other by exact E. apply H1.
      * intros k.
        destruct (String.eqb_spec (scheduleKey rm dy) k) as [E|E].
        -- subst k. rewrite get_set_same. discriminate.
        -- rewrite get_set_other by exact E. apply H2.
    + split; [apply addExisting_occupancy|apply addExisting_absent].
Qed.

Lemma occupancy_by_key (m : list (string * RoomSchedule)) (rm dy : string) :
  keyed m -> NoDup (map fst m) ->
  hasChar "-" rm = false -> hasChar "-" dy = false ->
  occupancyOf (map snd m) rm dy
  = match JS.get (scheduleKey rm dy) m with
    | Some rec => occupied rec
    | None => []
    end.
Proof.
  intros HK Hn Hrm Hdy. induction m as [|[k rec] m IH]; [reflexivity|].
  assert (Ek : k = scheduleKey (room rec) (day rec))
    by (apply (HK k rec); now left).
  assert (HK' : keyed m) by (intros k' r' Hin; apply HK; now right).
  inversion Hn as [|? ? Hk Hn']; subst.
  specialize (IH HK' Hn').
  change (map snd ((scheduleKey (room rec) (day rec), rec) :: m))
    with (rec :: map snd m).
  change (rec :: map snd m) with ([rec] ++ map snd m).
  rewrite occupancyOf_app, IH. cbn [JS.get].
  rewrite String.eqb_sym, (scheduleKey_eqb rm dy rec Hrm Hdy).
  unfold occupancyOf. cbn [filter].
  destruct (String.eqb (room rec) rm && String.eqb (day rec) dy) eqn:E.
  - cbn [flat_map]. rewrite app_nil_r.
    rewrite <- (scheduleKey_eqb rm dy rec Hrm Hdy) in E.
    apply String.eqb_eq in E. rewrite <- E.
    apply get_None_keys in Hk. cbn [fst] in Hk. rewrite Hk.
    now rewrite app_nil_r.
  - reflexivity.
Qed.

Lemma keyed_nodup (m : list (string * RoomSchedule)) :
  keyed m -> NoDup (map fst m) ->
  NoDup (map (fun rec => scheduleKey (room rec) (day rec)) (map snd m)).
Proof.
  intros HK HN.
  assert (E : map (fun rec => scheduleKey (room rec) (day rec)) (map snd m)
              = map fst m).
  { rewrite map_map. apply map_ext_in. intros [k rec] Hin. simpl.
    symmetry. now apply HK. }
  rewrite E. exact HN.
Qed.

Lemma keyed_record (m : list (string * RoomSchedule)) (rm dy : string) :
  keyed m ->
  hasChar "-" rm = false -> hasChar "-" dy = false ->
  JS.has (scheduleKey rm dy) m = true ->
  exists rec, In rec (map snd m) /\ room rec = rm /\ day rec = dy.
Proof.
  intros HK Hcr Hcd Hh. unfold JS.has in Hh.
  destruct (JS.get (scheduleKey rm dy) m) as [rec|] eqn:G; [|discriminate].
  apply get_In in G. pose proof (HK _ _ G) as Hk. symmetry in Hk.
  apply (scheduleKey_inj _ _ _ _ Hcr Hcd) in Hk as [Er Ed].
  exists rec. split; [|split; assumption].
  apply in_map_iff. exists (scheduleKey rm dy, rec). auto.
Qed.

(** X13, the completed list has one record per room and day.  No two
    records of [getCompleteSchedules] have the same room-day key, and for
    every roster room and every day of the timetable there is a record. *)
Theorem completion_one_record_per_key (schedules : list RoomSchedule) :
  NoDup (map (fun rec => scheduleKey (room rec) (day rec))
           (getCompleteSchedules schedules))
  /\ (forall rm dy, In rm ALL_ROOMS -> In dy DAYS ->
        exists rec, In rec (getCompleteSchedules schedules)
                    /\ room rec = rm /\ day rec = dy).
Proof.
  rewrite getCompleteSchedules_eq.
  destruct (completed_map rosterPairs schedules) as (HK & _ & HH).
  destruct (completed_occupancy rosterPairs schedules) as (HN & _ & _).
  split; [exact (keyed_nodup _ HK HN)|].
  intros rm dy Hrm Hdy.
  assert (Hcr : hasChar "-" rm = false).
  { simpl in Hrm. repeat destruct Hrm as [<-|Hrm]; try reflexivity.
    destruct Hrm. }
  assert (Hcd : hasChar "-" dy = false).
  { simpl in Hdy. repeat destruct Hdy as [<-|Hdy]; try reflexivity.
    destruct Hdy. }
  assert (Hpair : In (rm, dy) rosterPairs).
  { unfold rosterPairs. apply in_flat_map. exists rm. split; [exact Hrm|].
    now apply in_map. }
  apply (keyed_record _ rm dy HK Hcr Hcd). apply HH. left.
  apply (in_map (fun p => scheduleKey (fst p) (snd p))) in Hpair.
  exact Hpair.
Qed.

Lemma completion_one_record_per_key_witness :
  exists rec,
    In rec (getCompleteSchedules
              [mkRoomSchedule "501" "Mon" [mkTimeSlot "09:00" "11:30"]])
    /\ room rec = "405" /\ day rec = "Thur".
Proof.
  apply (proj2 (completion_one_record_per_key
                  [mkRoomSchedule "501" "Mon" [mkTimeSlot "09:00" "11:30"]])
           "405" "Thur").
  - simpl. tauto.
  - simpl. tauto.
Defined.

(** X14, completion does not change what is occupied.  For a room and a
    day without a dash, the occupied slots of the room on the day are the
    same, in the same order, in the list [getCompleteSchedules] returns as
    in the list it is given. *)
Theorem completion_keeps_occupancy (schedules : list RoomSchedule)
    (rm dy : string) :
  hasChar "-" rm = false -> hasChar "-" dy = false ->
  occupancyOf (getCompleteSchedules schedules) rm dy
  = occupancyOf schedules rm dy.
Proof.
  intros Hrm Hdy. rewrite getCompleteSchedules_eq.
  destruct (completed_map rosterPairs schedules) as (HK & _ & _).
  destruct (completed_occupancy rosterPairs schedules) as (HN & HS & HE).
  rewrite (occupancy_by_key _ rm dy HK HN Hrm Hdy).
  rewrite <- (keyOccupancy_occupancyOf schedules rm dy Hrm Hdy).
  destruct (JS.get (scheduleKey rm dy)
              (fold_left ensureKey rosterPairs
                 (fold_left addExisting schedules []))) as [rec|] eqn:G.
  - now apply HS.
  - symmetry. now apply HE.
Qed.

Lemma completion_keeps_occupancy_witness :
  occupancyOf
    (getCompleteSchedules
       [mkRoomSchedule "501" "Mon" [mkTimeSlot "09:00" "11:30"];
        mkRoomSchedule "999" "Mon" [mkTimeSlot "10:00" "11:00"];
        mkRoomSchedule "501" "Mon" [mkTimeSlot "13:00" "14:00"]])
    "501" "Mon"
  = occupancyOf
      [mkRoomSchedule "501" "Mon" [mkTimeSlot "09:00" "11:30"];
       mkRoomSchedule "999" "Mon" [mkTimeSlot "10:00" "11:00"];
       mkRoomSchedule "501" "Mon" [mkTimeSlot "13:00" "14:00"]]
      "501" "Mon".
Proof.
  apply (completion_keeps_occupancy
           [mkRoomSchedule "501" "Mon" [mkTimeSlot "09:00" "11:30"];
            mkRoomSchedule "999" "Mon" [mkTimeSlot "10:00" "11:00"];
            mkRoomSchedule "501" "Mon" [mkTimeSlot "13:00" "14:00"]]
           "501" "Mon"); reflexivity.
Defined.

(** ** String order on clock times is minute order *)

Lemma orderCheck_clockTable : orderCheck clockTable = true.
Proof. vm_compute. reflexivity. Qed.

Lemma orderCheck_compare (table : list (Z * string)) (p q : Z * string) :
  orderCheck table = true -> In p table -> In q table ->
  String.compare (snd p) (snd q) = Z.compare (fst p) (fst q).
Proof.
  unfold orderCheck. intros H Hp Hq. rewrite forallb_forall in H.
  specialize (H p Hp). cbv beta in H. rewrite forallb_forall in H.
  specialize (H q Hq). cbv beta in H.
  destruct (String.compare (snd p) (snd q)), (fst p ?= fst q);
    simpl in H; try discriminate; reflexivity.
Qed.

Lemma clockTable_in (a : string) :
  isClockTime a = true -> In (minutesOf a, a) clockTable.
Proof.
  intros Ha. destruct (minutesOf_spec a Ha) as (_ & Hz & Hp).
  destruct (clock_table (minutesOf a) Hz) as (Ht & _ & _).
  unfold clockTable. apply in_map_iff. exists (Z.to_nat (minutesOf a)).
  split; [|apply in_seq; lia].
  cbv zeta. rewrite Z2Nat.id by lia. now rewrite <- Ht, Hp.
Qed.

Lemma clock_compare (a b : string) :
  isClockTime a = true -> isClockTime b = true ->
  String.compare a b = Z.compare (minutesOf a) (minutesOf b).
Proof.
  intros Ha Hb.
  exact (orderCheck_compare clockTable (minutesOf a, a) (minutesOf b, b)
           orderCheck_clockTable (clockTable_in a Ha) (clockTable_in b Hb)).
Qed.

Lemma stringLe_clock (a b : string) :
  isClockTime a = true -> isClockTime b = true ->
  stringLe a b = (minutesOf a <=? minutesOf b).
Proof.
  intros Ha Hb. unfold stringLe, Z.leb. rewrite (clock_compare a b Ha Hb).
  reflexivity.
Qed.

Lemma stringGt_clock (a b : string) :
  isClockTime a = true -> isClockTime b = true ->
  stringGt a b = (minutesOf b <? minutesOf a).
Proof.
  intros Ha Hb. unfold stringGt. rewrite (clock_compare a b Ha Hb).
  unfold Z.ltb. rewrite (Z.compare_antisym (minutesOf a) (minutesOf b)).
  destruct (minutesOf a ?= minutesOf b); reflexivity.
Qed.

Lemma localeCompare_positive (x y : TimeSlot) :
  validSlot x = true -> validSlot y = true ->
  JS.positive (localeCompare (start x) (start y))
  = (fst (toInterval y) <? fst (toInterval x)).
Proof.
  unfold validSlot. intros Hx Hy.
  apply andb_true_iff in Hx as [Hx _]. apply andb_true_iff in Hy as [Hy _].
  unfold localeCompare. rewrite (clock_compare _ _ Hx Hy). simpl.
  unfold Z.ltb.
  rewrite (Z.compare_antisym (minutesOf (start x)) (minutesOf (start y))).
  destruct (minutesOf (start x) ?= minutesOf (start y)); reflexivity.
Qed.

(** ** [mergeTimeSlots] *)

Lemma sorted_by_start (cmp : TimeSlot -> TimeSlot -> number)
    (l : list TimeSlot) :
  (forall x y, validSlot x = true -> validSlot y = true ->
               JS.positive (cmp x y)
               = (fst (toInterval y) <? fst (toInterval x))) ->
  validSlots l = true ->
  StronglySorted byFst (map toInterval (JS.sort cmp l)).
Proof.
  intros Hc Hv.
  assert (Hs : Sorted (fun x y => byFst (toInterval x) (toInterval y))
                 (JS.sort cmp l)).
  { apply sort_sorted with (P := fun x => validSlot x = true).
    - intros x y Hx Hy Hp. rewrite Hc in Hp by auto.
      apply Z.ltb_lt in Hp. unfold byFst. lia.
    - intros x y Hx Hy Hp. rewrite Hc in Hp by auto.
      apply Z.ltb_ge in Hp. exact Hp.
    - apply Forall_forall. unfold validSlots in Hv.
      now rewrite forallb_forall in Hv. }
  apply Sorted_StronglySorted in Hs.
  - induction Hs as [|x r Hr IH Hx]; simpl; constructor; auto.
    apply Forall_map. exact Hx.
  - intros x y z. unfold byFst. lia.
Qed.

Lemma mergeTimeSlots_run (rest : list TimeSlot) :
  forall done cur,
    fold_left mergeTimeStep rest (done ++ [cur]) = done ++ mergeRun cur rest.
Proof.
  induction rest as [|x r IH]; intros done cur; [reflexivity|].
  cbn [fold_left mergeRun]. unfold mergeTimeStep at 2.
  rewrite rev_app_distr. cbn [rev app].
  destruct (stringLe (start x) (end_ cur)).
  - rewrite rev_involutive. apply IH.
  - rewrite IH. now rewrite <- app_assoc.
Qed.

Lemma mergeRun_valid (l : list TimeSlot) :
  forall cur, validSlot cur = true -> validSlots l = true ->
    validSlots (mergeRun cur l) = true.
Proof.
  induction l as [|x r IH]; intros cur Hc Hl; simpl.
  - now rewrite Hc.
  - simpl in Hl. apply andb_true_iff in Hl as [Hx Hr].
    destruct (stringLe (start x) (end_ cur)).
    + apply IH; [|exact Hr]. unfold validSlot in *. simpl.
      apply andb_true_iff in Hc as [C1 C2].
      apply andb_true_iff in Hx as [X1 X2].
      rewrite C1. simpl. now destruct (stringGt (end_ x) (end_ cur)).
    + simpl. rewrite Hc. simpl. now apply IH.
Qed.

Lemma mergeRun_step (cur x : TimeSlot) :
  validSlot cur = true -> validSlot x = true ->
  stringLe (start x) (end_ cur)
  = (fst (toInterval x) <=? snd (toInterval cur))
  /\ toInterval
       (mkTimeSlot (start cur)
          (if stringGt (end_ x) (end_ cur) then end_ x else end_ cur))
     = (fst (toInterval cur),
        Z.max (snd (toInterval cur)) (snd (toInterval x))).
Proof.
  unfold validSlot. intros Hc Hx.
  apply andb_true_iff in Hc as [C1 C2]. apply andb_true_iff in Hx as [X1 X2].
  split; [now apply stringLe_clock|].
  unfold toInterval. simpl. rewrite (stringGt_clock _ _ X2 C2). f_equal.
  destruct (minutesOf (end_ cur) <? minutesOf (end_ x)) eqn:E.
  - apply Z.ltb_lt in E. lia.
  - apply Z.ltb_ge in E. lia.
Qed.

Lemma mergeRun_covered (l : list TimeSlot) :
  forall cur, validSlot cur = true -> validSlots l = true ->
    StronglySorted byFst (map toInterval l) ->
    (forall i, In i (map toInterval l) -> fst (toInterval cur) <= fst i) ->
    forall t, covered (map toInterval (mergeRun cur l)) t
              <-> fst (toInterval cur) <= t < snd (toInterval cur)
                  \/ covered (map toInterval l) t.
Proof.
  induction l as [|x r IH]; intros cur Hc Hl Hs Hlo t.
  - simpl. rewrite covered_cons, covered_nil. tauto.
  - simpl in Hl. apply andb_true_iff in Hl as [Hx Hr].
    cbn [map] in Hs. apply StronglySorted_inv in Hs as [Hsr Hsx].
    destruct (mergeRun_step cur x Hc Hx) as [E1 E2].
    assert (Hcx : fst (toInterval cur) <= fst (toInterval x))
      by (apply Hlo; now left).
    cbn [mergeRun map]. rewrite E1. rewrite (covered_cons (toInterval x)).
    destruct (fst (toInterval x) <=? snd (toInterval cur)) eqn:Em.
    + apply Z.leb_le in Em. rewrite IH; auto.
      * rewrite E2. cbn [fst snd]. intuition lia.
      * unfold validSlot in *. simpl.
        apply andb_true_iff in Hc as [C1 C2].
        apply andb_true_iff in Hx as [X1 X2].
        rewrite C1. simpl. now destruct (stringGt (end_ x) (end_ cur)).
      * intros i Hi. rewrite E2. cbn [fst snd]. apply Hlo. now right.
    + cbn [map]. rewrite covered_cons, IH; auto; [tauto|].
      intros i Hi. rewrite Forall_forall in Hsx. now apply Hsx.
Qed.

Lemma mergeRun_chain (l : list TimeSlot) :
  forall cur lo, validSlot cur = true -> validSlots l = true ->
    positiveSlot cur = true -> positiveSlots l = true ->
    lo <= fst (toInterval cur) ->
    chain lo 1439 (map toInterval (mergeRun cur l)).
Proof.
  induction l as [|x r IH]; intros cur lo Hc Hl Pc Pl Hlo.
  - simpl. unfold positiveSlot in Pc.
    rewrite (toInterval_start cur Hc), (toInterval_end cur Hc) in Pc.
    simpl in Pc. apply Z.ltb_lt in Pc.
    unfold validSlot in Hc. apply andb_true_iff in Hc as [_ C2].
    destruct (minutesOf_spec _ C2) as (_ & Hb & _).
    destruct (toInterval cur) as [a b] eqn:E. simpl in *.
    unfold toInterval in E. inversion E; subst. repeat split; auto; lia.
  - simpl in Hl, Pl. apply andb_true_iff in Hl as [Hx Hr].
    apply andb_true_iff in Pl as [Px Pr].
    destruct (mergeRun_step cur x Hc Hx) as [E1 E2].
    pose proof Pc as Pc'. pose proof Px as Px'.
    unfold positiveSlot in Pc', Px'.
    rewrite (toInterval_start cur Hc), (toInterval_end cur Hc) in Pc'.
    rewrite (toInterval_start x Hx), (toInterval_end x Hx) in Px'.
    cbn [JS.lt JS.cmp2] in Pc', Px'. apply Z.ltb_lt in Pc', Px'.
    assert (Hv' : validSlot
                    (mkTimeSlot (start cur)
                       (if stringGt (end_ x) (end_ cur)
                        then end_ x else end_ cur)) = true).
    { unfold validSlot in *. simpl.
      apply andb_true_iff in Hc as [C1 C2].
      apply andb_true_iff in Hx as [X1 X2].
      rewrite C1. simpl. now destruct (stringGt (end_ x) (end_ cur)). }
    cbn [mergeRun]. rewrite E1.
    destruct (fst (toInterval x) <=? snd (toInterval cur)) eqn:Em.
    + apply Z.leb_le in Em. apply (IH _ lo Hv' Hr); [|exact Pr|].
      * unfold positiveSlot.
        rewrite (toInterval_start _ Hv'), (toInterval_end _ Hv'), E2.
        cbn [fst snd JS.lt JS.cmp2]. apply Z.ltb_lt. lia.
      * rewrite E2. cbn [fst snd]. exact Hlo.
    + apply Z.leb_gt in Em. cbn [map].
      unfold validSlot in Hc. apply andb_true_iff in Hc as [_ C2].
      destruct (minutesOf_spec _ C2) as (_ & Hb & _).
      destruct (toInterval cur) as [a b] eqn:E. simpl in *.
      unfold toInterval in E. inversion E; subst.
      repeat split; auto; try lia.
      apply IH; auto. lia.
Qed.

(** X15, merging slots on import.  For well-formed clock times
    [mergeTimeSlots] returns well-formed slots that contain exactly the
    minutes the input slots contain, so [findFreeSlots] gives the same free
    slots for the merged list as for the list itself; and when every input
    slot has a positive length, the merged slots have a positive length
    and are in ascending order, each starting strictly after the previous
    one ends. *)
Theorem mergeTimeSlots_keeps_occupancy (slots : list TimeSlot) :
  validSlots slots = true ->
  validSlots (mergeTimeSlots slots) = true
  /\ (forall t : Z,
        existsb (contains t) (mergeTimeSlots slots)
        = existsb (contains t) slots)
  /\ (forall operatingStart operatingEnd : string,
        isClockTime operatingStart = true ->
        isClockTime operatingEnd = true ->
        findFreeSlots (mergeTimeSlots slots) operatingStart operatingEnd
        = findFreeSlots slots operatingStart operatingEnd)
  /\ (positiveSlots slots = true ->
      positiveSlots (mergeTimeSlots slots) = true
      /\ StronglySorted (fun i j => fst i < fst j /\ snd i < fst j)
           (map toInterval (mergeTimeSlots slots))).
Proof.
  intros Hv.
  set (cmp := fun a b : TimeSlot => localeCompare (start a) (start b)).
  assert (Hperm : Permutation (JS.sort cmp slots) slots) by apply sort_perm.
  assert (Hsv : validSlots (JS.sort cmp slots) = true)
    by (apply (validSlots_perm slots); [now symmetry|exact Hv]).
  assert (Hss : StronglySorted byFst (map toInterval (JS.sort cmp slots)))
    by (apply sorted_by_start; [apply localeCompare_positive|exact Hv]).
  assert (Hm : mergeTimeSlots slots
               = match JS.sort cmp slots with
                 | [] => []
                 | first :: rest => mergeRun first rest
                 end).
  { unfold mergeTimeSlots. fold cmp. destruct slots as [|x l]; [reflexivity|].
    destruct (JS.sort cmp (x :: l)) as [|first rest]; [reflexivity|].
    apply (mergeTimeSlots_run rest [] first). }
  assert (Hval : validSlots (mergeTimeSlots slots) = true).
  { rewrite Hm. destruct (JS.sort cmp slots) as [|first rest]; [reflexivity|].
    simpl in Hsv. apply andb_true_iff in Hsv as [H1 H2].
    now apply mergeRun_valid. }
  assert (Hcov : forall t, covered (map toInterval (mergeTimeSlots slots)) t
                           <-> covered (map toInterval slots) t).
  { intros t. rewrite <- (covered_perm _ _ t (Permutation_map toInterval Hperm)).
    rewrite Hm. destruct (JS.sort cmp slots) as [|first rest]; [reflexivity|].
    simpl in Hsv. apply andb_true_iff in Hsv as [H1 H2].
    cbn [map] in Hss. apply StronglySorted_inv in Hss as [Hsr Hsf].
    rewrite mergeRun_covered; auto.
    - cbn [map]. now rewrite covered_cons.
    - intros i Hi. rewrite Forall_forall in Hsf. now apply Hsf. }
  split; [exact Hval|]. split; [|split].
  - intros t. rewrite (existsb_contains_valid t _ Hval).
    rewrite (existsb_contains_valid t _ Hv).
    specialize (Hcov t). rewrite <- !existsb_inside_covered in Hcov.
    destruct (existsb (inside t) (map toInterval (mergeTimeSlots slots)));
      destruct (existsb (inside t) (map toInterval slots)); try reflexivity;
      exfalso; intuition discriminate.
  - intros ws we Hs He.
    rewrite (findFreeSlots_spec _ _ Hs He _ Hval).
    rewrite (findFreeSlots_spec _ _ Hs He _ Hv). f_equal.
    unfold freeZ. f_equal.
    eapply chain_unique; [apply mergedZ_chain|apply mergedZ_chain|].
    intros t. rewrite !mergedZ_covered by assumption.
    rewrite !covered_clip. now rewrite Hcov.
  - intros Hp.
    assert (Hps : positiveSlots (JS.sort cmp slots) = true).
    { unfold positiveSlots in *. rewrite forallb_forall in *. intros x Hx.
      apply Hp. eapply Permutation_in; eauto. }
    assert (Hch : chain 0 1439 (map toInterval (mergeTimeSlots slots))).
    { rewrite Hm.
      destruct (JS.sort cmp slots) as [|first rest]; [exact I|].
      simpl in Hsv, Hps. apply andb_true_iff in Hsv as [H1 H2].
      apply andb_true_iff in Hps as [P1 P2].
      apply mergeRun_chain; auto.
      unfold validSlot in H1. apply andb_true_iff in H1 as [H1 _].
      destruct (minutesOf_spec _ H1) as (_ & Hb & _). simpl. lia. }
    split; [|now apply chain_separated in Hch].
    apply chain_bounds in Hch. unfold positiveSlots.
    apply forallb_forall. intros x Hx.
    assert (Hvx : validSlot x = true).
    { unfold validSlots in Hval. rewrite forallb_forall in Hval. auto. }
    unfold positiveSlot.
    rewrite (toInterval_start x Hvx), (toInterval_end x Hvx).
    cbn [JS.lt JS.cmp2]. apply Z.ltb_lt. rewrite Forall_forall in Hch.
    specialize (Hch (toInterval x) (in_map toInterval _ _ Hx)). lia.
Qed.

Lemma mergeTimeSlots_keeps_occupancy_witness :
  validSlots
    (mergeTimeSlots [mkTimeSlot "10:30" "12:00"; mkTimeSlot "09:00" "09:30";
                     mkTimeSlot "10:00" "11:00"; mkTimeSlot "12:00" "13:00"])
  = true.
Proof.
  exact (proj1 (mergeTimeSlots_keeps_occupancy
                  [mkTimeSlot "10:30" "12:00"; mkTimeSlot "09:00" "09:30";
                   mkTimeSlot "10:00" "11:00"; mkTimeSlot "12:00" "13:00"]
                  eq_refl)).
Defined.

(** ** [getAllRooms] *)

Lemma setAdd_in (x y : string) (s : list string) :
  In y (setAdd x s) <-> y = x \/ In y s.
Proof.
  unfold setAdd. destruct (existsb (String.eqb x) s) eqn:E.
  - split; [auto|]. intros [->|H]; [|exact H].
    apply existsb_exists in E as (z & Hz & Ez).
    apply String.eqb_eq in Ez. now subst.
  - rewrite in_app_iff. simpl. intuition.
Qed.

Lemma setAdd_nodup (x : string) (s : list string) :
  NoDup s -> NoDup (setAdd x s).
Proof.
  intros H. unfold setAdd.
  destruct (existsb (String.eqb x) s) eqn:E; [exact H|].
  apply NoDup_app; [exact H|repeat constructor; intros []|].
  intros y Hy [Ey|[]]. subst y.
  assert (Ht : existsb (String.eqb x) s = true)
    by (apply existsb_exists; exists x; split;
        [exact Hy|apply String.eqb_refl]).
  rewrite E in Ht. discriminate.
Qed.

Lemma roomSet_spec (l : list RoomSchedule) :
  forall s, NoDup s ->
    NoDup (fold_left (fun rooms x => setAdd (room x) rooms) l s)
    /\ forall r,
         In r (fold_left (fun rooms x => setAdd (room x) rooms) l s)
         <-> In r s \/ In r (map room l).
Proof.
  induction l as [|x l IH]; intros s Hs; simpl.
  - split; [exact Hs|]. tauto.
  - destruct (IH (setAdd (room x) s) (setAdd_nodup _ _ Hs)) as [H1 H2].
    split; [exact H1|]. intros r. rewrite H2, setAdd_in. intuition.
Qed.

Lemma roomOrder_trans (a b c : string) :
  roomOrder a b -> roomOrder b c -> roomOrder a c.
Proof.
  intros (na & nb & Ha & Hb & H1) (nb' & nc & Hb' & Hc & H2).
  rewrite Hb in Hb'. inversion Hb'; subst.
  exists na, nc. repeat split; auto. lia.
Qed.

(** X16, [getAllRooms].  The list has no duplicate, holds exactly the rooms
    that occur in the schedules and, when these rooms are numeric
    identifiers, is in ascending order of room number. *)
Theorem getAllRooms_sorted_set (schedules : list RoomSchedule) :
  NoDup (getAllRooms schedules)
  /\ (forall r, In r (getAllRooms schedules) <-> In r (map room schedules))
  /\ (numericRooms schedules = true ->
      StronglySorted roomOrder (getAllRooms schedules)).
Proof.
  unfold getAllRooms.
  set (cmp := fun a b : string => JS.sub (JS.parseInt a) (JS.parseInt b)).
  destruct (roomSet_spec schedules [] (NoDup_nil _)) as [H1 H2].
  set (rooms := fold_left (fun rooms x => setAdd (room x) rooms) schedules [])
    in *.
  pose proof (sort_perm cmp rooms) as Hp.
  split; [|split].
  - eapply Permutation_NoDup; [symmetry; exact Hp|exact H1].
  - intros r. split; intros H.
    + apply (Permutation_in _ Hp) in H. apply H2 in H as [[]|H]. exact H.
    + apply (Permutation_in _ (Permutation_sym Hp)). apply H2. now right.
  - intros Hn. apply Sorted_StronglySorted; [exact roomOrder_trans|].
    apply sort_sorted with (P := fun r => isRoomId r = true).
    + intros x y Hx Hy Hpos.
      destruct (parseInt_roomId x Hx) as (nx & Ex).
      destruct (parseInt_roomId y Hy) as (ny & Ey).
      unfold cmp in Hpos. rewrite Ex, Ey in Hpos. simpl in Hpos.
      apply Z.ltb_lt in Hpos. exists ny, nx. repeat split; auto. lia.
    + intros x y Hx Hy Hpos.
      destruct (parseInt_roomId x Hx) as (nx & Ex).
      destruct (parseInt_roomId y Hy) as (ny & Ey).
      unfold cmp in Hpos. rewrite Ex, Ey in Hpos. simpl in Hpos.
      apply Z.ltb_ge in Hpos. exists nx, ny. repeat split; auto. lia.
    + apply Forall_forall. intros r Hr. apply H2 in Hr as [[]|Hr].
      apply in_map_iff in Hr as (sch & <- & Hs).
      unfold numericRooms in Hn. rewrite forallb_forall in Hn. now apply Hn.
Qed.

Lemma getAllRooms_sorted_set_witness :
  StronglySorted roomOrder
    (getAllRooms
       [mkRoomSchedule "501" "Mon" []; mkRoomSchedule "4010" "Mon" [];
        mkRoomSchedule "402" "Tue" []; mkRoomSchedule "501" "Tue" []]).
Proof.
  exact (proj2 (proj2 (getAllRooms_sorted_set
           [mkRoomSchedule "501" "Mon" []; mkRoomSchedule "4010" "Mon" [];
            mkRoomSchedule "402" "Tue" []; mkRoomSchedule "501" "Tue" []]))
           eq_refl).
Defined.

(** ** The test script's [findFreeSlots] *)

Lemma test_absorb_refines (ws we : Z) (l : list TimeSlot) :
  forallb validSlot l = true ->
  forall (done : list interval) (cur : interval),
    fold_left (TestScript.mergeStep (Num ws) (Num we)) l
      (map toNumbers (done ++ [cur]))
    = map toNumbers (done ++ absorb ws we cur (map toInterval l)).
Proof.
  induction l as [|x l IH]; intros Hv done cur; [reflexivity|].
  simpl in Hv. apply andb_true_iff in Hv as [Hx Hl].
  cbn [fold_left map absorb]. unfold TestScript.mergeStep at 2.
  rewrite (toInterval_start x Hx), (toInterval_end x Hx).
  destruct (toInterval x) as [a b]. cbn [fst snd clip JS.Math_max JS.Math_min
    JS.lift2 JS.ge JS.cmp2].
  destruct (Z.max a ws >=? Z.min b we) eqn:Hd; [now apply IH|].
  rewrite map_app, rev_app_distr. cbn [map rev app toNumbers fst snd].
  cbn [JS.le JS.cmp2 JS.Math_max JS.lift2].
  destruct (Z.max a ws <=? snd cur) eqn:Hm.
  - rewrite rev_involutive.
    specialize (IH Hl done (fst cur, Z.max (snd cur) (Z.min b we))).
    rewrite map_app in IH. cbn [map toNumbers fst snd] in IH. apply IH.
  - replace (done ++ cur :: absorb ws we (Z.max a ws, Z.min b we)
                              (map toInterval l))
      with ((done ++ [cur])
              ++ absorb ws we (Z.max a ws, Z.min b we) (map toInterval l))
      by now rewrite <- app_assoc.
    rewrite <- IH by auto. now rewrite !map_app.
Qed.

Lemma test_merge_refines (ws we : Z) (l : list TimeSlot) :
  forallb validSlot l = true ->
  fold_left (TestScript.mergeStep (Num ws) (Num we)) l []
  = map toNumbers (mergeZ ws we (map toInterval l)).
Proof.
  induction l as [|x l IH]; intros Hv; [reflexivity|].
  simpl in Hv. apply andb_true_iff in Hv as [Hx Hl].
  cbn [fold_left map mergeZ]. unfold TestScript.mergeStep at 2.
  rewrite (toInterval_start x Hx), (toInterval_end x Hx).
  destruct (toInterval x) as [a b]. cbn [fst snd clip JS.Math_max JS.Math_min
    JS.lift2 JS.ge JS.cmp2].
  destruct (Z.max a ws >=? Z.min b we) eqn:Hd; [now apply IH|].
  cbn [rev].
  exact (test_absorb_refines ws we l Hl [] (Z.max a ws, Z.min b we)).
Qed.

Lemma test_invert_refines (we : Z) (closing : string) (m : list interval) :
  forall (free : list TimeSlot) (cur : Z),
    minutesToTime (Num we) = closing ->
    (let (freeSlots, currentStart) :=
       fold_left TestScript.invertStep (map toNumbers m) (free, Num cur) in
     if JS.lt currentStart (Num we)
     then freeSlots ++ [mkTimeSlot (minutesToTime currentStart) closing]
     else freeSlots)
    = free ++ map toSlot (invertZ cur we m).
Proof.
  induction m as [|[s e] r IH]; intros free cur Hc.
  - simpl. destruct (cur <? we); [|now rewrite app_nil_r].
    unfold toSlot. simpl. now rewrite Hc.
  - cbn [map fold_left invertZ]. unfold TestScript.invertStep at 2.
    cbn [toNumbers fst snd JS.lt JS.cmp2 JS.Math_max JS.lift2].
    rewrite IH by exact Hc.
    destruct (cur <? s); [|reflexivity].
    rewrite <- app_assoc. reflexivity.
Qed.

(** X17, the test script computes what the engine computes.  For
    well-formed occupied slots, the [findFreeSlots] of the algorithm test
    script returns the same list as the engine's [findFreeSlots] with the
    default operating hours. *)
Theorem test_script_agrees (occupiedSlots : list TimeSlot) :
  validSlots occupiedSlots = true ->
  TestScript.findFreeSlots occupiedSlots
  = findFreeSlots occupiedSlots
      (start OPERATING_HOURS) (end_ OPERATING_HOURS).
Proof.
  intros Hv.
  rewrite (findFreeSlots_spec (start OPERATING_HOURS) (end_ OPERATING_HOURS)
             eq_refl eq_refl _ Hv).
  unfold TestScript.findFreeSlots.
  change (timeToMinutes (start OPERATING_HOURS)) with (Num 540).
  change (timeToMinutes (end_ OPERATING_HOURS)) with (Num 1170).
  rewrite (test_merge_refines 540 1170 _
             (sorted_valid occupiedSlots Hv)).
  exact (test_invert_refines 1170 (end_ OPERATING_HOURS)
           (mergeZ 540 1170 (map toInterval (JS.sort byStart occupiedSlots)))
           [] 540 eq_refl).
Qed.

Lemma test_script_agrees_witness :
  TestScript.findFreeSlots
    [mkTimeSlot "14:30" "15:30"; mkTimeSlot "09:00" "09:30"]
  = findFreeSlots [mkTimeSlot "14:30" "15:30"; mkTimeSlot "09:00" "09:30"]
      (start OPERATING_HOURS) (end_ OPERATING_HOURS).
Proof.
  exact (test_script_agrees
           [mkTimeSlot "14:30" "15:30"; mkTimeSlot "09:00" "09:30"] eq_refl).
Defined.

(** X18, a room of the data with nothing occupied on the day.  Whatever
    the day asked for, a room that occurs in the schedules and has no
    occupied slot on that day is returned by the unfiltered query as free
    from 09:00 to 19:30, for 630 minutes. *)
Theorem unoccupied_room_is_free_all_day (schedules : list RoomSchedule)
    (rm dy : string) :
  In rm (map room schedules) ->
  occupancyOf schedules rm dy = [] ->
  In (mkFreeRoom rm dy "09:00" "19:30" (Num 630))
    (findFreeRooms schedules dy None None).
Proof.
  intros Hrm Ho. apply findFreeRooms_in_slots.
  exists rm, (mkTimeSlot "09:00" "19:30"). split; [exact Hrm|].
  rewrite Ho. split; left; reflexivity.
Qed.

Lemma unoccupied_room_is_free_all_day_witness :
  In (mkFreeRoom "402" "Sun" "09:00" "19:30" (Num 630))
    (findFreeRooms
       [mkRoomSchedule "402" "Tue" [mkTimeSlot "09:00" "09:30"]]
       "Sun" None None).
Proof.
  apply (unoccupied_room_is_free_all_day
           [mkRoomSchedule "402" "Tue" [mkTimeSlot "09:00" "09:30"]]
           "402" "Sun").
  - simpl. auto.
  - reflexivity.
Defined.
